(** * PageList: the mutable page sequence of pikepdf (src/qpdf/qpdf_pagelist.h)

    A shallow embedding of [class PageList] and of the lambdas bound in
    [init_pagelist], together with proofs about index resolution, insertion,
    deletion, replacement, slice assignment, reversal and extension.

    The C++ methods mutate a [QPDF] reached through a reference and may throw
    after having mutated it, so every method is a function from the store of
    all documents to a result (a value or a Python exception) and the store
    it leaves behind. *)

From stdpp Require Import base numbers list gmap.
From Stdlib Require Import ZArith Lia.

Local Open Scope Z_scope.

(** ** Machine integers: [size_t] and [ssize_t] on an LP64 target *)

Module Word.

Definition modulus : Z := 2 ^ 64.
Definition half : Z := 2 ^ 63.

(** The value of a [size_t] expression: arithmetic modulo [2^64]. *)
Definition to_size (z : Z) : Z := z mod modulus.

(** The value obtained when a 64-bit pattern is read as [ssize_t]. *)
Definition to_ssize (z : Z) : Z :=
  let u := z mod modulus in
  if u <? half then u else u - modulus.

Definition is_size (z : Z) : Prop := 0 <= z < modulus.
Definition is_ssize (z : Z) : Prop := - half <= z < half.

End Word.

(** ** Python exceptions raised through pybind11 *)

Inductive py_exception : Type :=
  | index_error
  | type_error
  | value_error
  | stop_iteration
  | error_already_set
  | qpdf_error.

(** ** Object handles and documents *)

(** A [QPDFObjectHandle] refers to one indirect object: the document that
    owns it ([getOwningQPDF]), its object number, the underlying object it
    stands for (shared by the copies [makeIndirectObject] creates) and
    whether that object is a page ([isPageObject]). *)
Record QPDFObjectHandle : Type := mkHandle {
  owning_qpdf : nat;
  objid : nat;
  body : nat;
  isPageObject : bool
}.

(** Identity of the indirect object behind a handle. *)
Definition objgen (h : QPDFObjectHandle) : nat * nat :=
  (owning_qpdf h, objid h).

Definition same_object (a b : QPDFObjectHandle) : bool :=
  bool_decide (objgen a = objgen b).

(** What Python hands to the binding: a wrapped object handle, or any other
    object (for which [cast<QPDFObjectHandle>] throws [cast_error]). *)
Inductive py_object : Type :=
  | py_handle (h : QPDFObjectHandle)
  | py_other.

Definition cast_handle (o : py_object) : option QPDFObjectHandle :=
  match o with
  | py_handle h => Some h
  | py_other => None
  end.

(** One document: its page collection in order, and the next free object
    number. *)
Record QPDF : Type := mkQPDF {
  all_pages : list QPDFObjectHandle;
  next_objid : nat
}.

Global Instance QPDF_inhabited : Inhabited QPDF := populate (mkQPDF [] 0).

(** The store: every live document by address, and the log of [inc_ref]
    calls made on document owners (one entry per call). *)
Record World : Type := mkWorld {
  heap : gmap nat QPDF;
  py_refs : list nat
}.

Definition doc (w : World) (g : nat) : QPDF := heap w !!! g.

Definition set_doc (g : nat) (q : QPDF) (w : World) : World :=
  mkWorld (<[g := q]> (heap w)) (py_refs w).

(** ** The monad of methods: state that survives a thrown exception *)

Definition M (A : Type) : Type := World -> (py_exception + A) * World.

Definition ret {A} (a : A) : M A := fun w => (inr a, w).

Definition throw {A} (e : py_exception) : M A := fun w => (inl e, w).

Definition bind {A B} (m : M A) (k : A -> M B) : M B :=
  fun w =>
    match m w with
    | (inl e, w') => (inl e, w')
    | (inr a, w') => k a w'
    end.

Notation "x <- c1 ;; c2" := (bind c1 (fun x => c2))
  (at level 100, c1 at next level, right associativity).
Notation "c1 ;; c2" := (bind c1 (fun _ => c2))
  (at level 100, right associativity).

(** [for (size_t i = first; i < first + todo; ++i) body(i)] *)
Fixpoint for_loop (first : nat) (todo : nat) (body : nat -> M unit) : M unit :=
  match todo with
  | O => ret tt
  | S k => body first ;; for_loop (S first) k body
  end.

(** ** The document engine (libqpdf), as far as PageList calls it *)

Module Engine.

(** Modelled from the spec: [allPages() -> ordered sequence of PageHandle],
    the canonical order and count of the bound graph (libqpdf's
    [QPDF::getAllPages], not under src/). *)
Definition getAllPages (g : nat) : M (list QPDFObjectHandle) :=
  fun w => (inr (all_pages (doc w g)), w).

(** Position of the first page whose indirect object is that of [h]. *)
Fixpoint findPage (pages : list QPDFObjectHandle) (h : QPDFObjectHandle)
  : option nat :=
  match pages with
  | [] => None
  | p :: rest =>
      if same_object p h then Some O
      else option_map S (findPage rest h)
  end.

Definition insert_at (pos : nat) (h : QPDFObjectHandle)
  (pages : list QPDFObjectHandle) : list QPDFObjectHandle :=
  take pos pages ++ h :: drop pos pages.

Definition erase_at (pos : nat) (pages : list QPDFObjectHandle)
  : list QPDFObjectHandle :=
  take pos pages ++ drop (S pos) pages.

(** Modelled from the spec: [addPageAt(handle, insertBefore, anchor)]: the
    anchor is located by object identity and the new handle is placed
    immediately before (or after) it (libqpdf's [QPDF::addPageAt], not under
    src/). An anchor that is not in the collection is an engine error, and
    "the engine forbids two positions referencing the same indirect object"
    (the source: "qpdf does not accept duplicating pages within the same
    file"): a handle whose object is already in the collection is refused
    and the collection is left as it was. *)
Definition addPageAt (g : nat) (newpage : QPDFObjectHandle) (before : bool)
  (refpage : QPDFObjectHandle) : M unit :=
  fun w =>
    let q := doc w g in
    match findPage (all_pages q) refpage with
    | None => (inl qpdf_error, w)
    | Some pos =>
        match findPage (all_pages q) newpage with
        | Some _ => (inl qpdf_error, w)
        | None =>
            let at_pos := if before then pos else S pos in
            (inr tt,
             set_doc g (mkQPDF (insert_at at_pos newpage (all_pages q))
                               (next_objid q)) w)
        end
    end.

(** Modelled from the spec: [addPageAtEnd(handle)] (libqpdf's
    [QPDF::addPage(newpage, first)], not under src/): with [first = false]
    the handle becomes the last page. As for [addPageAt], a handle whose
    object is already in the collection is refused. *)
Definition addPage (g : nat) (newpage : QPDFObjectHandle) (first : bool)
  : M unit :=
  fun w =>
    let q := doc w g in
    match findPage (all_pages q) newpage with
    | Some _ => (inl qpdf_error, w)
    | None =>
        let pos := if first then O else length (all_pages q) in
        (inr tt,
         set_doc g (mkQPDF (insert_at pos newpage (all_pages q))
                           (next_objid q)) w)
    end.

(** Modelled from the spec: [removePage(handle)]: the page is located by
    object identity and removed from the collection (libqpdf's
    [QPDF::removePage], not under src/). *)
Definition removePage (g : nat) (page : QPDFObjectHandle) : M unit :=
  fun w =>
    let q := doc w g in
    match findPage (all_pages q) page with
    | None => (inl qpdf_error, w)
    | Some pos =>
        (inr tt,
         set_doc g (mkQPDF (erase_at pos (all_pages q)) (next_objid q)) w)
    end.

(** Modelled from the spec: [makeIndirectCopy(handle) -> PageHandle], a
    fresh indirect object of the graph standing for the same underlying
    object (libqpdf's [QPDF::makeIndirectObject], not under src/). *)
Definition makeIndirectObject (g : nat) (page : QPDFObjectHandle)
  : M QPDFObjectHandle :=
  fun w =>
    let q := doc w g in
    (inr (mkHandle g (next_objid q) (body page) (isPageObject page)),
     set_doc g (mkQPDF (all_pages q) (S (next_objid q))) w).

(** [py::cast(page_owner).inc_ref()]: one more reference held on the
    document that owns a transplanted page. *)
Definition inc_ref (owner : nat) : M unit :=
  fun w => (inr tt, mkWorld (heap w) (owner :: py_refs w)).

End Engine.

(** ** Python slices *)

Record py_slice : Type := mkSlice {
  slice_start : option Z;
  slice_stop : option Z;
  slice_step : option Z
}.

Module Slice.

Definition ssize_max : Z := Word.half - 1.
Definition ssize_min : Z := - Word.half.

Definition clamp (z : Z) : Z := Z.max ssize_min (Z.min ssize_max z).

(** Modelled from the spec: "the same normalization rules as standard
    sequence slicing (clamping, default directions for negative steps)",
    that is CPython's [PySlice_Unpack] (not under src/): missing bounds
    default by the direction of the step, a zero step is an error. *)
Definition unpack (s : py_slice) : option (Z * Z * Z) :=
  let step := match slice_step s with
              | None => 1
              | Some v => Z.max (- ssize_max) (clamp v)
              end in
  if step =? 0 then None
  else
    let start := match slice_start s with
                 | None => if step <? 0 then ssize_max else 0
                 | Some v => clamp v
                 end in
    let stop := match slice_stop s with
                | None => if step <? 0 then ssize_min else ssize_max
                | Some v => clamp v
                end in
    Some (start, stop, step).

(** Modelled from the spec: clamping of one bound against the current
    length, CPython's [PySlice_AdjustIndices] (not under src/). *)
Definition adjust_bound (length step v : Z) : Z :=
  if v <? 0 then
    let v' := v + length in
    if v' <? 0 then (if step <? 0 then -1 else 0) else v'
  else if v >=? length then (if step <? 0 then length - 1 else length)
  else v.

Definition adjusted_length (start stop step : Z) : Z :=
  if step <? 0 then
    if stop <? start then (start - stop - 1) / (- step) + 1 else 0
  else
    if start <? stop then (stop - start - 1) / step + 1 else 0.

(** [slice.compute(length, &start, &stop, &step, &slicelength)]: pybind11
    stores the four signed results in [size_t] variables. [None] is the
    [false] return (a Python error is set). *)
Definition compute (s : py_slice) (length : Z) : option (Z * Z * Z * Z) :=
  match unpack s with
  | None => None
  | Some (start, stop, step) =>
      let start' := adjust_bound length step start in
      let stop' := adjust_bound length step stop in
      let slicelength := adjusted_length start' stop' step in
      Some (Word.to_size start', Word.to_size stop', Word.to_size step,
            Word.to_size slicelength)
  end.

End Slice.

(** ** [assert_pyobject_is_page] *)

Definition assert_pyobject_is_page (obj : py_object) : M unit :=
  match cast_handle obj with
  | None => throw type_error
  | Some h => if isPageObject h then ret tt else throw type_error
  end.

(** ** [class PageList] *)

Record PageList : Type := mkPageList {
  iterpos : Z;
  qpdf : nat
}.

Definition count (pl : PageList) : M Z :=
  pages <- Engine.getAllPages (qpdf pl) ;;
  ret (Z.of_nat (length pages)).

(** [getPage(ssize_t index)]: [index] is the signed value the caller's
    argument converts to. *)
Definition getPage (pl : PageList) (index : Z) : M QPDFObjectHandle :=
  pages <- Engine.getAllPages (qpdf pl) ;;
  let size := Z.of_nat (length pages) in
  let index := if index <? 0 then Word.to_ssize (index + size) else index in
  if index <? 0 then throw index_error
  else
    let uindex := Word.to_size index in
    if uindex <? size then
      match pages !! Z.to_nat uindex with
      | Some page => ret page
      | None => throw index_error
      end
    else throw index_error.

(** [getPages(py::slice)]: the loop reads [slicelength] pages, advancing the
    [size_t] cursor by [step] modulo [2^64]. *)
Fixpoint getPages_loop (pl : PageList) (todo : nat) (start step : Z)
  : M (list QPDFObjectHandle) :=
  match todo with
  | O => ret []
  | S k =>
      oh <- getPage pl (Word.to_ssize start) ;;
      rest <- getPages_loop pl k (Word.to_size (start + step)) step ;;
      ret (oh :: rest)
  end.

Definition getPages (pl : PageList) (slice : py_slice)
  : M (list QPDFObjectHandle) :=
  n <- count pl ;;
  match Slice.compute slice n with
  | None => throw error_already_set
  | Some (start, stop, step, slicelength) =>
      getPages_loop pl (Z.to_nat slicelength) start step
  end.

(** [insertPage(size_t index, QPDFObjectHandle page)] *)
Definition insertPage (pl : PageList) (index : Z) (page : QPDFObjectHandle)
  : M unit :=
  let page_owner := owning_qpdf page in
  page' <- (if bool_decide (page_owner = qpdf pl)
            then Engine.makeIndirectObject (qpdf pl) page
            else (Engine.inc_ref page_owner ;; ret page)) ;;
  n <- count pl ;;
  if negb (index =? n) then
    refpage <- getPage pl (Word.to_ssize index) ;;
    Engine.addPageAt (qpdf pl) page' true refpage
  else
    Engine.addPage (qpdf pl) page' false.

(** [insertPage(size_t index, py::handle obj)] *)
Definition insertPage_obj (pl : PageList) (index : Z) (obj : py_object)
  : M unit :=
  match cast_handle obj with
  | None => throw type_error
  | Some page =>
      if negb (isPageObject page) then throw type_error
      else insertPage pl index page
  end.

Definition deletePage (pl : PageList) (index : Z) : M unit :=
  page <- getPage pl (Word.to_ssize index) ;;
  Engine.removePage (qpdf pl) page.

Definition setPage (pl : PageList) (index : Z) (page : py_object) : M unit :=
  insertPage_obj pl index page ;;
  n <- count pl ;;
  if negb (index =? n) then deletePage pl (Word.to_size (index + 1))
  else ret tt.

(** The first loop of [setPagesFromIterable]: every item is checked and
    collected before anything else happens. *)
Fixpoint unpack_iterable (other : list py_object) : M (list py_object) :=
  match other with
  | [] => ret []
  | item :: rest =>
      assert_pyobject_is_page item ;;
      results <- unpack_iterable rest ;;
      ret (item :: results)
  end.

(** [results[i]] of a [py::list]. *)
Definition list_item (results : list py_object) (i : nat) : py_object :=
  default py_other (results !! i).

(** The extended-slice loop: [setPage(start + i * step, results[i])]. *)
Definition extended_assign (pl : PageList) (start step slicelength : Z)
  (results : list py_object) : M unit :=
  for_loop O (Z.to_nat slicelength) (fun i =>
    setPage pl (Word.to_size (start + Word.to_size (Z.of_nat i * step)))
            (list_item results i)).

(** The simple-slice insertion loop: [insertPage(start + i, results[i])]. *)
Definition simple_insert (pl : PageList) (start : Z)
  (results : list py_object) : M unit :=
  for_loop O (length results) (fun i =>
    insertPage_obj pl (Word.to_size (start + Z.of_nat i))
                   (list_item results i)).

(** The simple-slice deletion loop: [deletePage(del_start)],
    [slicelength] times. *)
Definition simple_delete (pl : PageList) (del_start slicelength : Z)
  : M unit :=
  for_loop O (Z.to_nat slicelength) (fun _ => deletePage pl del_start).

Definition setPagesFromIterable (pl : PageList) (slice : py_slice)
  (other : list py_object) : M unit :=
  n <- count pl ;;
  match Slice.compute slice n with
  | None => throw error_already_set
  | Some (start, stop, step, slicelength) =>
      results <- unpack_iterable other ;;
      if negb (step =? 1) then
        if negb (Z.of_nat (length results) =? slicelength)
        then throw value_error
        else extended_assign pl start step slicelength results
      else
        simple_insert pl start results ;;
        simple_delete pl
          (Word.to_size (start + Z.of_nat (length results))) slicelength
  end.

(** ** The lambdas of [init_pagelist] *)

Module Bindings.

(** [.def("p", ...)]: ordinal (1-based) lookup. *)
Definition p (pl : PageList) (index : Z) : M QPDFObjectHandle :=
  if index =? 0 then throw index_error
  else getPage pl (Word.to_ssize (Word.to_size (index - 1))).

(** [.def("__iter__", ...)]: a fresh list on the same document, cursor at
    the start. *)
Definition iter (pl : PageList) : PageList := mkPageList 0 (qpdf pl).

(** [.def("__next__", ...)]: the page under the cursor and the list with the
    cursor advanced, or [stop_iteration]. *)
Definition next (pl : PageList) : M (QPDFObjectHandle * PageList) :=
  n <- count pl ;;
  if iterpos pl <? n then
    page <- getPage pl (Word.to_ssize (iterpos pl)) ;;
    ret (page, mkPageList (Word.to_size (iterpos pl + 1)) (qpdf pl))
  else throw stop_iteration.

(** [.def("reverse", ...)] *)
Definition reverse (pl : PageList) : M unit :=
  n <- count pl ;;
  let ordinary_indices := mkSlice (Some 0) (Some (Word.to_ssize n)) (Some 1) in
  let reversed := mkSlice None None (Some (-1)) in
  reversed_pages <- getPages pl reversed ;;
  setPagesFromIterable pl ordinary_indices (py_handle <$> reversed_pages).

(** [.def("append", ...)] *)
Definition append (pl : PageList) (page : py_object) : M unit :=
  n <- count pl ;;
  insertPage_obj pl n page.

(** [.def("extend", [](PageList &pl, PageList &other) ...)]: the body of
    the loop, for the captured [other_count] and the loop variable [i]. *)
Definition extend_step (pl other : PageList) (other_count : Z) (i : nat)
  : M unit :=
  c <- count other ;;
  if negb (other_count =? c) then throw value_error
  else
    page <- getPage other (Word.to_ssize (Z.of_nat i)) ;;
    n <- count pl ;;
    insertPage pl n page.

Definition extend (pl other : PageList) : M unit :=
  other_count <- count other ;;
  for_loop O (Z.to_nat other_count) (extend_step pl other other_count).

(** [.def("extend", [](PageList &pl, py::iterable iterable) ...)] *)
Fixpoint extend_iterable (pl : PageList) (iterable : list py_object)
  : M unit :=
  match iterable with
  | [] => ret tt
  | item :: rest =>
      assert_pyobject_is_page item ;;
      n <- count pl ;;
      insertPage_obj pl n item ;;
      extend_iterable pl rest
  end.

End Bindings.

(** ** Small documents to run the methods on *)

Module Samples.

Definition pg (g id : nat) : QPDFObjectHandle := mkHandle g id (100 * g + id) true.

Definition world_of (pages : list QPDFObjectHandle) (next : nat) : World :=
  mkWorld {[ 1%nat := mkQPDF pages next ]} [].

Definition pl1 : PageList := mkPageList 0 1.

Definition pagesOf (r : (py_exception + unit) * World) : list QPDFObjectHandle :=
  all_pages (doc (snd r) 1).

(** A three-page document, a one-page document and an empty one, all at
    address 1; document 2 owns the foreign page. *)
Definition w3 : World := world_of [pg 1 0; pg 1 1; pg 1 2] 3.
Definition w1 : World := world_of [pg 1 0] 1.
Definition w0 : World := world_of [] 0.
Definition foreign : QPDFObjectHandle := pg 2 7.

End Samples.

(** Whether a Python object passes [assert_pyobject_is_page]. *)
Definition is_page_object (o : py_object) : bool :=
  match cast_handle o with
  | Some h => isPageObject h
  | None => false
  end.

(** ** Observations on the document a list is bound to *)

Definition pages_of (w : World) (pl : PageList) : list QPDFObjectHandle :=
  all_pages (doc w (qpdf pl)).

Definition next_of (w : World) (pl : PageList) : nat :=
  next_objid (doc w (qpdf pl)).

Definition page_count (w : World) (pl : PageList) : Z :=
  Z.of_nat (length (pages_of w pl)).

(** The handle that [insertPage] hands to the engine: the fresh indirect
    copy when the page belongs to the bound document, the page itself
    otherwise. *)
Definition placed (w : World) (pl : PageList) (page : QPDFObjectHandle)
  : QPDFObjectHandle :=
  if bool_decide (owning_qpdf page = qpdf pl)
  then mkHandle (qpdf pl) (next_of w pl) (body page) (isPageObject page)
  else page.

(** The world after the ownership bookkeeping of [insertPage] alone. *)
Definition booked (w : World) (pl : PageList) (page : QPDFObjectHandle)
  : World :=
  if bool_decide (owning_qpdf page = qpdf pl)
  then set_doc (qpdf pl) (mkQPDF (pages_of w pl) (S (next_of w pl))) w
  else mkWorld (heap w) (owning_qpdf page :: py_refs w).

(** The world in which the bound document's page collection is replaced. *)
Definition with_pages (w : World) (pl : PageList)
  (pages : list QPDFObjectHandle) : World :=
  set_doc (qpdf pl) (mkQPDF pages (next_of w pl)) w.

(** The handles the insertion loop places for a run of sources, starting
    with [next] as the next free object number: a source of the bound
    document [g] is replaced by its fresh copy, a foreign one is kept. *)
Fixpoint stamp (g next : nat) (srcs : list QPDFObjectHandle)
  : list QPDFObjectHandle :=
  match srcs with
  | [] => []
  | h :: rest =>
      if bool_decide (owning_qpdf h = g)
      then mkHandle g next (body h) (isPageObject h) :: stamp g (S next) rest
      else h :: stamp g next rest
  end.

(** How many of the sources belong to document [g]. *)
Definition own_count (g : nat) (srcs : list QPDFObjectHandle) : nat :=
  length (filter (fun h => owning_qpdf h = g) srcs).

(** The sources that belong to another document than [g]. *)
Definition foreign_sources (g : nat) (srcs : list QPDFObjectHandle)
  : list QPDFObjectHandle :=
  filter (fun h => owning_qpdf h <> g) srcs.

(** Every entry of the collection is a page object of the bound document
    itself. *)
Definition own_pages (w : World) (pl : PageList) : Prop :=
  Forall (fun h => owning_qpdf h = qpdf pl /\ isPageObject h = true)
         (pages_of w pl).

(** The invariant of the data model: no indirect object occurs twice in the
    page collection, and the objects of the bound document that occur in it
    have been allocated (their number is below the next free one). *)
Record wf (w : World) (pl : PageList) : Prop := mk_wf {
  wf_nodup : NoDup (objgen <$> pages_of w pl);
  wf_alloc : Forall (fun h => owning_qpdf h = qpdf pl ->
                              (objid h < next_of w pl)%nat) (pages_of w pl)
}.

(** ** A postcondition calculus for the monad

    [post I m Q]: started in a world that satisfies [I], the computation
    [m] ends, normally or by an exception, in a world that satisfies [I],
    and a value it returns satisfies [Q]. *)
Definition post {A} (I : World -> Prop) (m : M A) (Q : A -> Prop) : Prop :=
  forall w, I w -> I (snd (m w)) /\ (forall a, fst (m w) = inr a -> Q a).

(** The invariant that operations on pages of the bound document keep. *)
Definition own_invariant (pl : PageList) (w : World) : Prop :=
  wf w pl /\ own_pages w pl.

(** An object that, where it is a handle, belongs to the bound document. *)
Definition own_object (pl : PageList) (o : py_object) : Prop :=
  forall h, cast_handle o = Some h -> owning_qpdf h = qpdf pl.

(** ** Arithmetic of the two integer types *)

Section WordFacts.

Lemma to_size_small z : 0 <= z < Word.modulus -> Word.to_size z = z.
Proof. intros Hz. unfold Word.to_size. apply Z.mod_small. exact Hz. Qed.

Lemma to_ssize_nonneg z : 0 <= z < Word.half -> Word.to_ssize z = z.
Proof.
  intros Hz. unfold Word.to_ssize.
  assert (Hm : z mod Word.modulus = z).
  { apply Z.mod_small. unfold Word.modulus, Word.half in *. lia. }
  rewrite Hm. destruct (Z.ltb_spec z Word.half); lia.
Qed.

Lemma to_ssize_neg z : - Word.half <= z < 0 -> Word.to_ssize z = z.
Proof.
  intros Hz. unfold Word.to_ssize.
  assert (Hm : z mod Word.modulus = z + Word.modulus).
  { rewrite <- (Z_mod_plus_full z 1 Word.modulus).
    apply Z.mod_small. unfold Word.modulus, Word.half in *. lia. }
  rewrite Hm.
  destruct (Z.ltb_spec (z + Word.modulus) Word.half);
    unfold Word.modulus, Word.half in *; lia.
Qed.

Lemma to_ssize_id z : Word.is_ssize z -> Word.to_ssize z = z.
Proof.
  intros [Hlo Hhi]. destruct (Z.lt_ge_cases z 0).
  - apply to_ssize_neg. lia.
  - apply to_ssize_nonneg. lia.
Qed.

(** A [size_t] at or above [2^63] is read back as a negative [ssize_t]. *)
Lemma to_ssize_high z :
  Word.half <= z < Word.modulus -> Word.to_ssize z = z - Word.modulus.
Proof.
  intros Hz. unfold Word.to_ssize.
  rewrite Z.mod_small by (unfold Word.modulus, Word.half in *; lia).
  destruct (Z.ltb_spec z Word.half); lia.
Qed.

End WordFacts.

(** ** Running the primitives *)

Section Primitives.

Lemma doc_set_doc_eq g q w : doc (set_doc g q w) g = q.
Proof. unfold doc, set_doc. simpl. apply lookup_total_insert_eq. Qed.

Lemma doc_set_doc_ne g g' q w : g <> g' -> doc (set_doc g q w) g' = doc w g'.
Proof. intros Hne. unfold doc, set_doc. simpl. by apply lookup_total_insert_ne. Qed.

Lemma pages_of_set_doc pl q w : pages_of (set_doc (qpdf pl) q w) pl = all_pages q.
Proof. unfold pages_of. by rewrite doc_set_doc_eq. Qed.

Lemma next_of_set_doc pl q w : next_of (set_doc (qpdf pl) q w) pl = next_objid q.
Proof. unfold next_of. by rewrite doc_set_doc_eq. Qed.

Lemma count_run pl w : count pl w = (inr (page_count w pl), w).
Proof. reflexivity. Qed.

Lemma length_insert_at pos h (l : list QPDFObjectHandle) :
  length (Engine.insert_at pos h l) = S (length l).
Proof.
  unfold Engine.insert_at. rewrite length_app. simpl.
  rewrite length_take, length_drop. lia.
Qed.

Lemma length_erase_at pos (l : list QPDFObjectHandle) :
  (pos < length l)%nat -> S (length (Engine.erase_at pos l)) = length l.
Proof.
  intros Hpos. unfold Engine.erase_at.
  rewrite length_app, length_take, length_drop. lia.
Qed.

Lemma findPage_middle (l1 l2 : list QPDFObjectHandle) a :
  objgen a ∉ objgen <$> l1 ->
  Engine.findPage (l1 ++ a :: l2) a = Some (length l1).
Proof.
  induction l1 as [|b l1 IH]; intros Hfresh; simpl.
  - unfold same_object. by rewrite bool_decide_eq_true_2.
  - rewrite fmap_cons in Hfresh. apply not_elem_of_cons in Hfresh as [Hne Hrest].
    unfold same_object. rewrite bool_decide_eq_false_2 by congruence.
    by rewrite IH.
Qed.

Lemma findPage_at (l : list QPDFObjectHandle) (i : nat) a :
  NoDup (objgen <$> l) -> l !! i = Some a -> Engine.findPage l a = Some i.
Proof.
  intros Hnd Hi.
  pose proof (take_drop_middle l i a Hi) as Hsplit.
  rewrite <- Hsplit in Hnd |- *.
  rewrite fmap_app, fmap_cons in Hnd.
  apply NoDup_app in Hnd as (_ & Hdisj & _).
  rewrite findPage_middle.
  - f_equal. apply length_take_le. apply lookup_lt_Some in Hi. lia.
  - intros Hin. apply (Hdisj _ Hin). left.
Qed.

(** The engine's lookup by identity finds exactly the objects that are in
    the collection. *)
Lemma findPage_fresh (l : list QPDFObjectHandle) a :
  objgen a ∉ objgen <$> l -> Engine.findPage l a = None.
Proof.
  induction l as [|b l IH]; intros Hfresh; simpl; [reflexivity|].
  rewrite fmap_cons in Hfresh. apply not_elem_of_cons in Hfresh as [Hne Hrest].
  unfold same_object. rewrite bool_decide_eq_false_2 by congruence.
  by rewrite IH.
Qed.

Lemma findPage_present (l : list QPDFObjectHandle) a :
  objgen a ∈ objgen <$> l -> exists pos, Engine.findPage l a = Some pos.
Proof.
  induction l as [|b l IH]; intros Hin; simpl.
  - by apply elem_of_nil in Hin.
  - rewrite fmap_cons in Hin. unfold same_object.
    case_bool_decide as Hsame; [by eexists|].
    apply elem_of_cons in Hin as [Heq|Hin]; [congruence|].
    destruct (IH Hin) as (pos & ->). by eexists.
Qed.

(** [getPage] on an index that needs no normalisation. *)
Lemma getPage_hit pl w i page :
  0 <= i -> page_count w pl <= Word.modulus ->
  pages_of w pl !! Z.to_nat i = Some page ->
  getPage pl i w = (inr page, w).
Proof.
  intros Hi Hsmall Hlook.
  pose proof (lookup_lt_Some _ _ _ Hlook) as Hlt.
  unfold page_count in Hsmall.
  assert (Hf : (i <? 0) = false) by lia.
  assert (Ht : (i <? Z.of_nat (length (pages_of w pl))) = true) by lia.
  unfold getPage, bind, Engine.getAllPages, ret. cbv zeta.
  fold (pages_of w pl).
  rewrite !Hf, to_size_small, Ht, Hlook by lia. reflexivity.
Qed.

Lemma getPage_miss pl w i :
  page_count w pl <= i < Word.modulus ->
  getPage pl i w = (inl index_error, w).
Proof.
  intros Hi. unfold page_count in Hi.
  assert (Hf : (i <? 0) = false) by lia.
  assert (Ht : (i <? Z.of_nat (length (pages_of w pl))) = false) by lia.
  unfold getPage, bind, Engine.getAllPages, throw. cbv zeta.
  fold (pages_of w pl).
  rewrite !Hf, to_size_small, Ht by lia. reflexivity.
Qed.

(** [getPage] on a negative index: the count is added once. *)
Lemma getPage_negative pl w i :
  i < 0 -> Word.is_ssize (i + page_count w pl) ->
  getPage pl i w =
    if i + page_count w pl <? 0 then (inl index_error, w)
    else getPage pl (i + page_count w pl) w.
Proof.
  intros Hneg Hrange.
  assert (Ht : (i <? 0) = true) by lia.
  unfold getPage, bind, Engine.getAllPages, throw. cbv zeta.
  fold (pages_of w pl). fold (page_count w pl).
  rewrite Ht, (to_ssize_id _ Hrange).
  destruct (i + page_count w pl <? 0) eqn:Hlt; [reflexivity|].
  assert (Hf : (i + page_count w pl <? 0) = false) by exact Hlt.
  destruct (i + page_count w pl) eqn:Hsum; try reflexivity; discriminate.
Qed.

Lemma pages_of_with_pages w pl pages : pages_of (with_pages w pl pages) pl = pages.
Proof. unfold with_pages. by rewrite pages_of_set_doc. Qed.

Lemma next_of_with_pages w pl pages : next_of (with_pages w pl pages) pl = next_of w pl.
Proof. unfold with_pages. by rewrite next_of_set_doc. Qed.

Lemma py_refs_with_pages w pl pages : py_refs (with_pages w pl pages) = py_refs w.
Proof. reflexivity. Qed.

Lemma pages_of_booked w pl page : pages_of (booked w pl page) pl = pages_of w pl.
Proof.
  unfold booked. case_bool_decide; [|reflexivity].
  by rewrite pages_of_set_doc.
Qed.

Lemma next_of_booked w pl page :
  next_of (booked w pl page) pl =
    if bool_decide (owning_qpdf page = qpdf pl)
    then S (next_of w pl) else next_of w pl.
Proof.
  unfold booked. case_bool_decide; [|reflexivity].
  by rewrite next_of_set_doc.
Qed.

Lemma py_refs_booked w pl page :
  py_refs (booked w pl page) =
    if bool_decide (owning_qpdf page = qpdf pl)
    then py_refs w else owning_qpdf page :: py_refs w.
Proof. unfold booked. by case_bool_decide. Qed.

Lemma page_count_booked w pl page : page_count (booked w pl page) pl = page_count w pl.
Proof. unfold page_count. by rewrite pages_of_booked. Qed.

(** [insertPage] is its bookkeeping followed by the placement. *)
Lemma insertPage_unfold pl index page w :
  insertPage pl index page w =
    if negb (index =? page_count w pl) then
      match getPage pl (Word.to_ssize index) (booked w pl page) with
      | (inl e, w') => (inl e, w')
      | (inr refpage, w') =>
          Engine.addPageAt (qpdf pl) (placed w pl page) true refpage w'
      end
    else Engine.addPage (qpdf pl) (placed w pl page) false (booked w pl page).
Proof.
  unfold insertPage, placed, booked, bind.
  case_bool_decide as Hown.
  - unfold Engine.makeIndirectObject. rewrite count_run.
    unfold page_count at 1. rewrite pages_of_set_doc. simpl.
    fold (pages_of w pl). fold (page_count w pl). fold (next_of w pl).
    destruct (index =? page_count w pl); reflexivity.
  - unfold Engine.inc_ref, ret. rewrite count_run.
    destruct (index =? _); reflexivity.
Qed.

Lemma insert_at_end h (l : list QPDFObjectHandle) :
  Engine.insert_at (length l) h l = l ++ [h].
Proof.
  unfold Engine.insert_at. by rewrite take_ge, drop_ge by lia.
Qed.

(** Insertion at the append position. *)
Lemma insertPage_append pl w index page :
  index = page_count w pl ->
  objgen (placed w pl page) ∉ objgen <$> pages_of w pl ->
  insertPage pl index page w =
    (inr tt, with_pages (booked w pl page) pl
               (pages_of w pl ++ [placed w pl page])).
Proof.
  intros -> Hfresh. rewrite insertPage_unfold, Z.eqb_refl. simpl.
  unfold Engine.addPage, with_pages.
  fold (pages_of (booked w pl page) pl). fold (next_of (booked w pl page) pl).
  rewrite pages_of_booked, (findPage_fresh _ _ Hfresh), insert_at_end.
  reflexivity.
Qed.

(** The engine refuses, at the append position, a handle whose object the
    collection already holds: the bookkeeping of [insertPage] stays. *)
Lemma insertPage_append_refused pl w index page :
  index = page_count w pl ->
  objgen (placed w pl page) ∈ objgen <$> pages_of w pl ->
  insertPage pl index page w = (inl qpdf_error, booked w pl page).
Proof.
  intros -> Hin. rewrite insertPage_unfold, Z.eqb_refl. simpl.
  unfold Engine.addPage.
  fold (pages_of (booked w pl page) pl). rewrite pages_of_booked.
  by destruct (findPage_present _ _ Hin) as (pos & ->).
Qed.

(** Insertion before the page that occupies a valid index. *)
Lemma insertPage_before pl w index page :
  0 <= index < page_count w pl -> page_count w pl <= Word.half ->
  NoDup (objgen <$> pages_of w pl) ->
  objgen (placed w pl page) ∉ objgen <$> pages_of w pl ->
  insertPage pl index page w =
    (inr tt, with_pages (booked w pl page) pl
               (Engine.insert_at (Z.to_nat index) (placed w pl page)
                                 (pages_of w pl))).
Proof.
  intros Hidx Hsmall Hnd Hfresh.
  rewrite insertPage_unfold.
  assert (Hne : (index =? page_count w pl) = false) by lia.
  rewrite Hne. simpl.
  rewrite to_ssize_nonneg by lia.
  destruct (lookup_lt_is_Some_2 (pages_of w pl) (Z.to_nat index))
    as [refpage Href]; [unfold page_count in Hidx; lia|].
  rewrite (getPage_hit _ _ _ refpage).
  - unfold Engine.addPageAt, with_pages.
    fold (pages_of (booked w pl page) pl). fold (next_of (booked w pl page) pl).
    rewrite pages_of_booked, (findPage_at _ _ _ Hnd Href),
      (findPage_fresh _ _ Hfresh).
    reflexivity.
  - lia.
  - rewrite page_count_booked. unfold Word.half, Word.modulus in *. lia.
  - by rewrite pages_of_booked.
Qed.

(** Insertion at an index that [getPage] rejects: the exception leaves the
    bookkeeping behind. *)
Lemma insertPage_reject pl w index page :
  page_count w pl < index < Word.half ->
  insertPage pl index page w = (inl index_error, booked w pl page).
Proof.
  intros Hidx.
  rewrite insertPage_unfold.
  assert (Hne : (index =? page_count w pl) = false) by lia.
  rewrite Hne. simpl.
  rewrite to_ssize_nonneg by (unfold page_count in *; lia).
  rewrite getPage_miss; [reflexivity|].
  rewrite page_count_booked. unfold Word.half, Word.modulus in *. lia.
Qed.

(** Deletion of the page at a valid index. *)
Lemma deletePage_run pl w index :
  0 <= index < page_count w pl -> page_count w pl <= Word.half ->
  NoDup (objgen <$> pages_of w pl) ->
  deletePage pl index w =
    (inr tt, with_pages w pl (Engine.erase_at (Z.to_nat index) (pages_of w pl))).
Proof.
  intros Hidx Hsmall Hnd.
  unfold deletePage, bind.
  rewrite to_ssize_nonneg by lia.
  destruct (lookup_lt_is_Some_2 (pages_of w pl) (Z.to_nat index))
    as [page Hpage]; [unfold page_count in Hidx; lia|].
  rewrite (getPage_hit _ _ _ page); [|lia| |exact Hpage].
  - unfold Engine.removePage, with_pages.
    fold (pages_of w pl). fold (next_of w pl).
    rewrite (findPage_at _ _ _ Hnd Hpage). reflexivity.
  - unfold Word.half, Word.modulus in *. lia.
Qed.

Lemma deletePage_reject pl w index :
  page_count w pl <= index < Word.half ->
  deletePage pl index w = (inl index_error, w).
Proof.
  intros Hidx. unfold deletePage, bind.
  rewrite to_ssize_nonneg by (unfold page_count in *; lia).
  rewrite getPage_miss; [reflexivity|].
  unfold Word.half, Word.modulus in *. lia.
Qed.

End Primitives.

(** ** Counts after one insertion or deletion *)

Section Counts.

Lemma findPage_found (l : list QPDFObjectHandle) (i : nat) a :
  l !! i = Some a ->
  exists pos, Engine.findPage l a = Some pos /\ (pos <= i)%nat.
Proof.
  revert i. induction l as [|b l IH]; intros i Hi; [done|].
  simpl. destruct (same_object b a) eqn:Hsame.
  - exists O. split; [reflexivity|lia].
  - destruct i as [|i]; simpl in Hi.
    + injection Hi as ->. unfold same_object in Hsame.
      by rewrite bool_decide_eq_true_2 in Hsame.
    + destruct (IH i Hi) as (pos & -> & Hle).
      exists (S pos). split; [reflexivity|lia].
Qed.

Lemma page_count_with_pages w pl pages :
  page_count (with_pages w pl pages) pl = Z.of_nat (length pages).
Proof. unfold page_count. by rewrite pages_of_with_pages. Qed.

(** A successful [getPage] returns an entry of the collection and leaves the
    world alone. *)
Lemma getPage_valid pl w index :
  0 <= index < page_count w pl -> page_count w pl <= Word.half ->
  exists page, pages_of w pl !! Z.to_nat index = Some page /\
               getPage pl (Word.to_ssize index) w = (inr page, w).
Proof.
  intros Hidx Hsmall.
  destruct (lookup_lt_is_Some_2 (pages_of w pl) (Z.to_nat index))
    as [page Hpage]; [unfold page_count in Hidx; lia|].
  exists page. split; [exact Hpage|].
  rewrite to_ssize_nonneg by lia.
  apply getPage_hit; [lia| |exact Hpage].
  unfold Word.half, Word.modulus in *. lia.
Qed.

Lemma insertPage_count pl w index page :
  0 <= index <= page_count w pl -> page_count w pl <= Word.half ->
  objgen (placed w pl page) ∉ objgen <$> pages_of w pl ->
  exists w', insertPage pl index page w = (inr tt, w') /\
             page_count w' pl = page_count w pl + 1.
Proof.
  intros Hidx Hsmall Hfresh.
  destruct (Z.eq_dec index (page_count w pl)) as [Heq|Hne].
  - rewrite (insertPage_append _ _ _ _ Heq Hfresh).
    eexists. split; [reflexivity|].
    rewrite page_count_with_pages, length_app. simpl.
    unfold page_count. lia.
  - rewrite insertPage_unfold.
    assert (Hf : (index =? page_count w pl) = false) by lia.
    rewrite Hf. simpl.
    destruct (getPage_valid pl (booked w pl page) index)
      as (refpage & Href & ->); rewrite ?page_count_booked; [lia|lia|].
    destruct (findPage_found _ _ _ Href) as (pos & Hpos & _).
    unfold Engine.addPageAt.
    fold (pages_of (booked w pl page) pl).
    rewrite Hpos, pages_of_booked, (findPage_fresh _ _ Hfresh).
    eexists. split; [reflexivity|].
    unfold page_count. rewrite pages_of_set_doc. simpl.
    rewrite length_insert_at. lia.
Qed.

(** The engine refuses, before a valid index, a handle whose object the
    collection already holds. *)
Lemma insertPage_before_refused pl w index page :
  0 <= index < page_count w pl -> page_count w pl <= Word.half ->
  objgen (placed w pl page) ∈ objgen <$> pages_of w pl ->
  insertPage pl index page w = (inl qpdf_error, booked w pl page).
Proof.
  intros Hidx Hsmall Hin.
  rewrite insertPage_unfold.
  assert (Hne : (index =? page_count w pl) = false) by lia.
  rewrite Hne. simpl.
  destruct (getPage_valid pl (booked w pl page) index)
    as (refpage & Href & ->); rewrite ?page_count_booked; [lia|lia|].
  destruct (findPage_found _ _ _ Href) as (pos & Hpos & _).
  unfold Engine.addPageAt.
  fold (pages_of (booked w pl page) pl). rewrite Hpos, pages_of_booked.
  by destruct (findPage_present _ _ Hin) as (pos' & ->).
Qed.

Lemma deletePage_count pl w index :
  0 <= index < page_count w pl -> page_count w pl <= Word.half ->
  exists w', deletePage pl index w = (inr tt, w') /\
             page_count w' pl = page_count w pl - 1.
Proof.
  intros Hidx Hsmall. unfold deletePage, bind.
  destruct (getPage_valid pl w index) as (page & Hpage & ->); [lia|lia|].
  destruct (findPage_found _ _ _ Hpage) as (pos & Hpos & Hle).
  unfold Engine.removePage. fold (pages_of w pl). rewrite Hpos.
  eexists. split; [reflexivity|].
  unfold page_count. rewrite pages_of_set_doc. simpl.
  pose proof (length_erase_at pos (pages_of w pl)) as Hlen.
  apply lookup_lt_Some in Hpage. lia.
Qed.

End Counts.

(** The sample three-page document satisfies the invariant. *)
Lemma sample_w3_wf : wf Samples.w3 Samples.pl1.
Proof.
  split.
  - refine (bool_decide_unpack _ _). vm_compute. exact I.
  - refine (bool_decide_unpack _ _). vm_compute. exact I.
Qed.

(** ** Index resolution and single-page reads *)

Section Reads.

(** C2: for a signed index [i] and page count [n], [getPage] adds [n] to a
    negative [i]; when the result is still negative or is at least [n] it
    raises the out-of-range error, otherwise it returns the page at that
    position, and in both cases the world is left as it was. In particular
    [getPage(-1)] is the page at [n - 1] of a non-empty list and
    [getPage(-n-1)] is out of range. *)
Theorem getPage_normalizes (pl : PageList) (w : World) (i : Z) :
  Word.is_ssize i -> page_count w pl < Word.half ->
  let n := page_count w pl in
  let j := if i <? 0 then i + n else i in
  (j < 0 \/ n <= j -> getPage pl i w = (inl index_error, w)) /\
  (0 <= j < n ->
     exists page, pages_of w pl !! Z.to_nat j = Some page /\
                  getPage pl i w = (inr page, w)) /\
  (0 < n ->
     exists page, pages_of w pl !! Z.to_nat (n - 1) = Some page /\
                  getPage pl (-1) w = (inr page, w)) /\
  getPage pl (- n - 1) w = (inl index_error, w).
Proof.
  intros [Hlo Hhi] Hsmall n j.
  assert (Hn : 0 <= n) by (unfold n, page_count; lia).
  assert (Hhalf : Word.half < Word.modulus) by reflexivity.
  assert (Hhit : forall k, 0 <= k < n ->
            exists page, pages_of w pl !! Z.to_nat k = Some page /\
                         getPage pl k w = (inr page, w)).
  { intros k Hk.
    destruct (lookup_lt_is_Some_2 (pages_of w pl) (Z.to_nat k))
      as [page Hpage]; [unfold n, page_count in Hk; lia|].
    exists page. split; [exact Hpage|].
    apply getPage_hit; [lia|fold n; lia|exact Hpage]. }
  assert (Hneg : forall k, - Word.half <= k < 0 ->
            getPage pl k w =
              if k + n <? 0 then (inl index_error, w) else getPage pl (k + n) w).
  { intros k Hk. apply getPage_negative; [lia|].
    unfold Word.is_ssize. fold n. lia. }
  repeat split.
  - intros Hout. subst j. destruct (Z.ltb_spec i 0) as [Hi|Hi].
    + rewrite Hneg by lia.
      destruct (Z.ltb_spec (i + n) 0); [reflexivity|lia].
    + apply getPage_miss. fold n. lia.
  - intros Hin. subst j. destruct (Z.ltb_spec i 0) as [Hi|Hi].
    + rewrite Hneg by lia.
      destruct (Z.ltb_spec (i + n) 0); [lia|]. by apply Hhit.
    + by apply Hhit.
  - intros Hpos. rewrite Hneg by (unfold Word.half; lia).
    destruct (Z.ltb_spec (-1 + n) 0); [lia|].
    replace (n - 1) with (-1 + n) by lia. apply Hhit. lia.
  - rewrite Hneg by lia.
    destruct (Z.ltb_spec (- n - 1 + n) 0); [reflexivity|lia].
Qed.

Lemma getPage_normalizes_witness :
  Word.is_ssize (-1) /\ page_count Samples.w3 Samples.pl1 < Word.half /\
  getPage Samples.pl1 (- page_count Samples.w3 Samples.pl1 - 1) Samples.w3
    = (inl index_error, Samples.w3).
Proof.
  assert (H1 : Word.is_ssize (-1)) by (unfold Word.is_ssize, Word.half; lia).
  assert (H2 : page_count Samples.w3 Samples.pl1 < Word.half) by reflexivity.
  split; [exact H1|]. split; [exact H2|].
  exact (proj2 (proj2 (proj2
           (getPage_normalizes Samples.pl1 Samples.w3 (-1) H1 H2)))).
Defined.

(** C9: an ordinal [n] above [2^64 - count] is far past the end of the list,
    and [getPage] at [n - 1] raises the out-of-range error; yet [p(n)]
    returns a page, the one at position [n - 1 - 2^64 + count], where the
    specification has [p(n)] return what [getPage(n - 1)] returns: the
    [size_t] value [n - 1] is handed to [getPage] as an [ssize_t], read as
    the negative index [n - 1 - 2^64] and counted from the end. *)
Theorem p_huge_ordinal_wraps (pl : PageList) (w : World) (n : Z) :
  page_count w pl < Word.half ->
  Word.modulus - page_count w pl < n < Word.modulus ->
  page_count w pl < n - 1 /\
  exists page,
    pages_of w pl !! Z.to_nat (n - 1 - Word.modulus + page_count w pl)
      = Some page /\
    Bindings.p pl n w = (inr page, w) /\
    getPage pl (n - 1) w = (inl index_error, w) /\
    Bindings.p pl n w = getPage pl (n - 1 - Word.modulus) w.
Proof.
  intros Hsmall Hn.
  assert (Hhalf : Word.modulus = 2 * Word.half) by reflexivity.
  assert (Hcount : 0 <= page_count w pl) by (unfold page_count; lia).
  split; [lia|].
  destruct (lookup_lt_is_Some_2 (pages_of w pl)
              (Z.to_nat (n - 1 - Word.modulus + page_count w pl)))
    as [page Hpage]; [unfold page_count in *; lia|].
  assert (Hneg : getPage pl (n - 1 - Word.modulus) w = (inr page, w)).
  { rewrite getPage_negative by (unfold Word.is_ssize; lia).
    destruct (Z.ltb_spec (n - 1 - Word.modulus + page_count w pl) 0); [lia|].
    apply getPage_hit; [lia|lia|exact Hpage]. }
  assert (Hp : Bindings.p pl n w = getPage pl (n - 1 - Word.modulus) w).
  { unfold Bindings.p. assert (Hf : (n =? 0) = false) by lia. rewrite Hf.
    by rewrite to_size_small, to_ssize_high by lia. }
  exists page. split; [exact Hpage|]. split; [by rewrite Hp|].
  split; [apply getPage_miss; lia|exact Hp].
Qed.

Lemma p_huge_ordinal_wraps_witness :
  page_count Samples.w3 Samples.pl1 = 3 /\
  Bindings.p Samples.pl1 (Word.modulus - 1) Samples.w3
    = (inr (Samples.pg 1 1), Samples.w3) /\
  getPage Samples.pl1 (Word.modulus - 1 - 1) Samples.w3
    = (inl index_error, Samples.w3).
Proof.
  split; [reflexivity|].
  destruct (p_huge_ordinal_wraps Samples.pl1 Samples.w3 (Word.modulus - 1))
    as (_ & page & Hpage & Hp & Hget & _).
  - reflexivity.
  - split; reflexivity.
  - vm_compute in Hpage. injection Hpage as <-.
    split; [exact Hp|exact Hget].
Defined.

(** X16: within the signed range the ordinal accessor is [getPage] one
    position earlier: [p(0)] raises the out-of-range error without
    consulting [getPage], so it never maps to the last page, which is what
    [getPage(-1)] returns on a non-empty list, and for [1 <= n <= 2^63],
    [p(n)] returns what [getPage(n - 1)] returns, out-of-range error
    included. *)
Theorem p_ordinal (pl : PageList) (w : World) (n : Z) :
  Word.is_size n ->
  (n = 0 -> Bindings.p pl n w = (inl index_error, w)) /\
  (n = 0 -> 0 < page_count w pl < Word.half ->
     Bindings.p pl n w <> getPage pl (n - 1) w) /\
  (1 <= n <= Word.half -> Bindings.p pl n w = getPage pl (n - 1) w).
Proof.
  intros [Hlo Hhi]. unfold Bindings.p. repeat split.
  - intros ->. reflexivity.
  - intros -> Hcount. change (0 =? 0) with true. cbv iota.
    rewrite getPage_negative by (unfold Word.is_ssize, Word.half in *; lia).
    destruct (Z.ltb_spec (0 - 1 + page_count w pl) 0); [lia|].
    destruct (lookup_lt_is_Some_2 (pages_of w pl)
                (Z.to_nat (0 - 1 + page_count w pl)))
      as [page Hpage]; [unfold page_count in *; lia|].
    rewrite (getPage_hit _ _ _ page);
      [discriminate|lia|unfold Word.half, Word.modulus in *; lia|exact Hpage].
  - intros Hn. assert (Hf : (n =? 0) = false) by lia. rewrite Hf.
    rewrite to_size_small by lia. rewrite to_ssize_nonneg by lia. reflexivity.
Qed.

Lemma p_ordinal_witness :
  Word.is_size 1 /\
  Bindings.p Samples.pl1 1 Samples.w3 = getPage Samples.pl1 (1 - 1) Samples.w3.
Proof.
  assert (H1 : Word.is_size 1) by (unfold Word.is_size, Word.modulus; lia).
  split; [exact H1|].
  apply (p_ordinal Samples.pl1 Samples.w3 1 H1).
  unfold Word.half. lia.
Defined.

End Reads.

(** ** Insertion and deletion *)

Section InsertDelete.

Lemma insert_at_lookup_lt pos h (l : list QPDFObjectHandle) (k : nat) :
  (pos <= length l)%nat -> (k < pos)%nat ->
  Engine.insert_at pos h l !! k = l !! k.
Proof.
  intros Hpos Hk. unfold Engine.insert_at.
  rewrite lookup_app_l by (rewrite length_take; lia).
  by apply lookup_take_lt.
Qed.

Lemma insert_at_lookup_eq pos h (l : list QPDFObjectHandle) :
  (pos <= length l)%nat -> Engine.insert_at pos h l !! pos = Some h.
Proof.
  intros Hpos. unfold Engine.insert_at.
  apply list_lookup_middle. rewrite length_take. lia.
Qed.

Lemma insert_at_lookup_gt pos h (l : list QPDFObjectHandle) (k : nat) :
  (pos <= length l)%nat -> (pos <= k)%nat ->
  Engine.insert_at pos h l !! S k = l !! k.
Proof.
  intros Hpos Hk. unfold Engine.insert_at.
  rewrite lookup_app_r by (rewrite length_take; lia).
  rewrite length_take. replace (S k - pos `min` length l)%nat with (S (k - pos)) by lia.
  simpl. rewrite lookup_drop. f_equal. lia.
Qed.

(** Where one insertion puts the page, with the exact world it leaves. *)
Lemma insertPage_run pl w index page :
  0 <= index <= page_count w pl -> page_count w pl <= Word.half ->
  NoDup (objgen <$> pages_of w pl) ->
  objgen (placed w pl page) ∉ objgen <$> pages_of w pl ->
  insertPage pl index page w =
    (inr tt, with_pages (booked w pl page) pl
               (Engine.insert_at (Z.to_nat index) (placed w pl page)
                                 (pages_of w pl))).
Proof.
  intros Hidx Hsmall Hnd Hfresh.
  destruct (Z.eq_dec index (page_count w pl)) as [Heq|Hne].
  - rewrite (insertPage_append _ _ _ _ Heq Hfresh). subst index.
    unfold page_count. by rewrite Nat2Z.id, insert_at_end.
  - apply insertPage_before; [lia|lia|exact Hnd|exact Hfresh].
Qed.

(** C4: [insertPage] of a handle that the engine accepts (its object is not
    yet in the collection, as is every fresh copy of a page of the bound
    document) at the current count appends; at a smaller index it places the
    page immediately before the page occupying that index, every page at or
    after the index moving one position later; the count grows by exactly
    one, and [deletePage] at a valid index makes it shrink by exactly
    one. *)
Theorem insertPage_placement (pl : PageList) (w : World) (index : Z)
  (page : QPDFObjectHandle) :
  page_count w pl < Word.half -> 0 <= index <= page_count w pl ->
  objgen (placed w pl page) ∉ objgen <$> pages_of w pl ->
  exists w', insertPage pl index page w = (inr tt, w') /\
    page_count w' pl = page_count w pl + 1 /\
    (index = page_count w pl ->
       pages_of w' pl = pages_of w pl ++ [placed w pl page]) /\
    (NoDup (objgen <$> pages_of w pl) ->
       pages_of w' pl !! Z.to_nat index = Some (placed w pl page) /\
       (forall k, (k < Z.to_nat index)%nat ->
          pages_of w' pl !! k = pages_of w pl !! k) /\
       (forall k, (Z.to_nat index <= k)%nat ->
          pages_of w' pl !! S k = pages_of w pl !! k)) /\
    (forall d, 0 <= d < page_count w pl ->
       exists w'', deletePage pl d w = (inr tt, w'') /\
                   page_count w'' pl = page_count w pl - 1).
Proof.
  intros Hsmall Hidx Hfresh.
  destruct (insertPage_count pl w index page) as (w' & Hrun & Hcount);
    [lia|lia|exact Hfresh|].
  exists w'. split; [exact Hrun|]. split; [exact Hcount|].
  assert (Hlen : (Z.to_nat index <= length (pages_of w pl))%nat)
    by (unfold page_count in Hidx; lia).
  repeat split.
  - intros Heq. rewrite (insertPage_append _ _ _ _ Heq Hfresh) in Hrun.
    injection Hrun as <-. by rewrite pages_of_with_pages.
  - rewrite insertPage_run in Hrun by (done || lia). injection Hrun as <-.
    rewrite pages_of_with_pages. by apply insert_at_lookup_eq.
  - intros k Hk.
    rewrite insertPage_run in Hrun by (done || lia). injection Hrun as <-.
    rewrite pages_of_with_pages. by apply insert_at_lookup_lt.
  - intros k Hk.
    rewrite insertPage_run in Hrun by (done || lia). injection Hrun as <-.
    rewrite pages_of_with_pages. by apply insert_at_lookup_gt.
  - intros d Hd. apply deletePage_count; lia.
Qed.

Lemma insertPage_placement_witness :
  page_count Samples.w3 Samples.pl1 < Word.half /\
  0 <= 1 <= page_count Samples.w3 Samples.pl1 /\
  (objgen (placed Samples.w3 Samples.pl1 Samples.foreign)
     ∉ objgen <$> pages_of Samples.w3 Samples.pl1) /\
  exists w', insertPage Samples.pl1 1 Samples.foreign Samples.w3 = (inr tt, w') /\
             page_count w' Samples.pl1 = page_count Samples.w3 Samples.pl1 + 1.
Proof.
  assert (H1 : page_count Samples.w3 Samples.pl1 < Word.half) by reflexivity.
  assert (H2 : 0 <= 1 <= page_count Samples.w3 Samples.pl1)
    by (split; intro Hc; discriminate Hc).
  assert (H3 : objgen (placed Samples.w3 Samples.pl1 Samples.foreign)
                 ∉ objgen <$> pages_of Samples.w3 Samples.pl1).
  { refine (bool_decide_unpack _ _). vm_compute. exact I. }
  split; [exact H1|]. split; [exact H2|]. split; [exact H3|].
  destruct (insertPage_placement Samples.pl1 Samples.w3 1 Samples.foreign H1 H2 H3)
    as (w' & Hrun & Hcount & _).
  exists w'. split; [exact Hrun|exact Hcount].
Defined.

(** *** Copy on reinsertion *)

Lemma placed_own w pl page :
  owning_qpdf page = qpdf pl ->
  placed w pl page =
    mkHandle (qpdf pl) (next_of w pl) (body page) (isPageObject page).
Proof. intros Hown. unfold placed. by rewrite bool_decide_eq_true_2. Qed.

Lemma placed_foreign w pl page :
  owning_qpdf page <> qpdf pl -> placed w pl page = page.
Proof. intros Hown. unfold placed. by rewrite bool_decide_eq_false_2. Qed.

(** The next free object number names no page of the collection. *)
Lemma next_objid_fresh w pl :
  wf w pl -> (qpdf pl, next_of w pl) ∉ objgen <$> pages_of w pl.
Proof.
  intros [_ Halloc] Hin.
  apply list_elem_of_fmap in Hin as (h & Heq & Hh).
  rewrite Forall_forall in Halloc. specialize (Halloc h Hh).
  unfold objgen in Heq. injection Heq as Hg Hid.
  specialize (Halloc (eq_sym Hg)). lia.
Qed.

Lemma insert_at_perm pos h (l : list QPDFObjectHandle) :
  Engine.insert_at pos h l ≡ₚ h :: l.
Proof.
  unfold Engine.insert_at. rewrite <- Permutation_middle.
  by rewrite take_drop.
Qed.

(** The invariant survives the insertion of a handle whose object is not
    yet in the collection. *)
Lemma wf_insert w pl page pos :
  wf w pl ->
  objgen (placed w pl page) ∉ objgen <$> pages_of w pl ->
  wf (with_pages (booked w pl page) pl
        (Engine.insert_at pos (placed w pl page) (pages_of w pl))) pl.
Proof.
  intros [Hnd Halloc] Hfresh. split.
  - rewrite pages_of_with_pages, insert_at_perm, fmap_cons.
    by apply NoDup_cons.
  - rewrite pages_of_with_pages, next_of_with_pages, next_of_booked.
    rewrite insert_at_perm. apply Forall_cons. split.
    + unfold placed. case_bool_decide as Hown; simpl; [lia|done].
    + eapply Forall_impl; [exact Halloc|]. intros h Hh Hg. specialize (Hh Hg).
      case_bool_decide; lia.
Qed.

Lemma wf_insert_own w pl page pos :
  wf w pl -> owning_qpdf page = qpdf pl ->
  wf (with_pages (booked w pl page) pl
        (Engine.insert_at pos (placed w pl page) (pages_of w pl))) pl.
Proof.
  intros Hwf Hown. apply wf_insert; [exact Hwf|].
  rewrite (placed_own _ _ _ Hown). by apply next_objid_fresh.
Qed.

(** C3: when the page belongs to the bound document, [insertPage] allocates
    a fresh indirect copy and inserts that copy, whose identity is not yet
    in the collection; so inserting the same handle twice never leaves two
    positions with the same indirect object. *)
Theorem insertPage_copy_on_reinsert (pl : PageList) (w : World)
  (page : QPDFObjectHandle) (i j : Z) :
  wf w pl -> owning_qpdf page = qpdf pl ->
  page_count w pl + 1 < Word.half ->
  0 <= i <= page_count w pl -> 0 <= j <= page_count w pl + 1 ->
  let copy1 := mkHandle (qpdf pl) (next_of w pl) (body page) (isPageObject page) in
  let copy2 := mkHandle (qpdf pl) (S (next_of w pl)) (body page) (isPageObject page) in
  exists w1 w2,
    insertPage pl i page w = (inr tt, w1) /\
    pages_of w1 pl = Engine.insert_at (Z.to_nat i) copy1 (pages_of w pl) /\
    (objgen copy1 ∉ objgen <$> pages_of w pl) /\
    NoDup (objgen <$> pages_of w1 pl) /\
    insertPage pl j page w1 = (inr tt, w2) /\
    pages_of w2 pl = Engine.insert_at (Z.to_nat j) copy2 (pages_of w1 pl) /\
    objgen copy2 <> objgen copy1 /\
    NoDup (objgen <$> pages_of w2 pl).
Proof.
  intros Hwf Hown Hsmall Hi Hj copy1 copy2.
  pose proof (wf_insert_own w pl page (Z.to_nat i) Hwf Hown) as Hwf1.
  set (w1 := with_pages (booked w pl page) pl
               (Engine.insert_at (Z.to_nat i) (placed w pl page) (pages_of w pl)))
    in Hwf1.
  assert (Hrun1 : insertPage pl i page w = (inr tt, w1)).
  { apply insertPage_run; [lia|lia|apply Hwf|].
    rewrite (placed_own _ _ _ Hown). by apply next_objid_fresh. }
  assert (Hcount1 : page_count w1 pl = page_count w pl + 1).
  { unfold w1. rewrite page_count_with_pages, length_insert_at.
    unfold page_count. lia. }
  assert (Hnext1 : next_of w1 pl = S (next_of w pl)).
  { unfold w1. rewrite next_of_with_pages, next_of_booked.
    by rewrite bool_decide_eq_true_2. }
  pose proof (wf_insert_own w1 pl page (Z.to_nat j) Hwf1 Hown) as Hwf2.
  exists w1, (with_pages (booked w1 pl page) pl
               (Engine.insert_at (Z.to_nat j) (placed w1 pl page) (pages_of w1 pl))).
  split; [exact Hrun1|]. split.
  { unfold w1. by rewrite pages_of_with_pages, (placed_own _ _ _ Hown). }
  split; [by apply next_objid_fresh|].
  split; [apply Hwf1|].
  split.
  { apply insertPage_run; [lia|lia|apply Hwf1|].
    rewrite (placed_own _ _ _ Hown). by apply next_objid_fresh. }
  split.
  { by rewrite pages_of_with_pages, (placed_own _ _ _ Hown), Hnext1. }
  split.
  { unfold copy1, copy2, objgen. simpl. intros Heq. injection Heq. lia. }
  apply Hwf2.
Qed.

Lemma insertPage_copy_on_reinsert_witness :
  wf Samples.w3 Samples.pl1 /\
  exists w1 w2,
    insertPage Samples.pl1 0 (Samples.pg 1 1) Samples.w3 = (inr tt, w1) /\
    insertPage Samples.pl1 4 (Samples.pg 1 1) w1 = (inr tt, w2) /\
    NoDup (objgen <$> pages_of w2 Samples.pl1).
Proof.
  assert (Hwf : wf Samples.w3 Samples.pl1) by exact sample_w3_wf.
  split; [exact Hwf|].
  destruct (insertPage_copy_on_reinsert Samples.pl1 Samples.w3 (Samples.pg 1 1) 0 4)
    as (w1 & w2 & H1 & _ & _ & _ & H2 & _ & _ & H3).
  - exact Hwf.
  - reflexivity.
  - reflexivity.
  - split; intros Hc; discriminate Hc.
  - split; intros Hc; discriminate Hc.
  - exists w1, w2. split; [exact H1|]. split; [exact H2|exact H3].
Defined.

End InsertDelete.

(** ** Single-position replacement *)

Section Replace.

Lemma insert_at_app (l1 l2 : list QPDFObjectHandle) h :
  Engine.insert_at (length l1) h (l1 ++ l2) = l1 ++ h :: l2.
Proof.
  unfold Engine.insert_at. by rewrite take_app_length, drop_app_length.
Qed.

Lemma erase_at_app (l1 l2 : list QPDFObjectHandle) a :
  Engine.erase_at (length l1) (l1 ++ a :: l2) = l1 ++ l2.
Proof.
  unfold Engine.erase_at. rewrite take_app_length.
  replace (l1 ++ a :: l2) with ((l1 ++ [a]) ++ l2) by (by rewrite <- app_assoc).
  replace (S (length l1)) with (length (l1 ++ [a]))
    by (rewrite length_app; simpl; lia).
  by rewrite drop_app_length.
Qed.

Lemma getPage_pure pl i w : snd (getPage pl i w) = w.
Proof.
  unfold getPage, bind, Engine.getAllPages, ret, throw. cbv zeta.
  repeat (match goal with
          | |- context [if ?b then _ else _] => destruct b
          | |- context [match ?o with Some _ => _ | None => _ end] => destruct o
          end; try reflexivity).
Qed.

(** Whenever [insertPage] returns, the collection has one more page. *)
Lemma insertPage_grows pl w index page w' :
  insertPage pl index page w = (inr tt, w') ->
  page_count w' pl = page_count w pl + 1.
Proof.
  rewrite insertPage_unfold.
  destruct (index =? page_count w pl); simpl.
  - unfold Engine.addPage.
    destruct (Engine.findPage _ (placed w pl page)); [discriminate|].
    intros Hrun. injection Hrun as <-.
    unfold page_count. rewrite pages_of_set_doc. simpl.
    fold (pages_of (booked w pl page) pl).
    rewrite length_insert_at, pages_of_booked. lia.
  - pose proof (getPage_pure pl (Word.to_ssize index) (booked w pl page)) as Hpure.
    destruct (getPage pl (Word.to_ssize index) (booked w pl page))
      as [[e|refpage] w1]; [discriminate|].
    simpl in Hpure. subst w1. unfold Engine.addPageAt.
    destruct (Engine.findPage _ refpage); [|discriminate].
    destruct (Engine.findPage _ (placed w pl page)); [discriminate|].
    intros Hrun. injection Hrun as <-.
    unfold page_count. rewrite pages_of_set_doc. simpl.
    fold (pages_of (booked w pl page) pl).
    rewrite length_insert_at, pages_of_booked. lia.
Qed.

Lemma insertPage_obj_page pl index h w :
  isPageObject h = true ->
  insertPage_obj pl index (py_handle h) w = insertPage pl index h w.
Proof. intros Hp. unfold insertPage_obj. simpl. by rewrite Hp. Qed.

Lemma insertPage_obj_grows pl w index obj w' :
  insertPage_obj pl index obj w = (inr tt, w') ->
  page_count w' pl = page_count w pl + 1.
Proof.
  unfold insertPage_obj. destruct (cast_handle obj) as [h|]; [|discriminate].
  destruct (isPageObject h); simpl; [|discriminate].
  apply insertPage_grows.
Qed.

Lemma insertPage_obj_reject pl w index obj :
  page_count w pl < index < Word.half ->
  exists w',
    insertPage_obj pl index obj w =
      (inl (if is_page_object obj then index_error else type_error), w').
Proof.
  intros Hidx. unfold insertPage_obj, is_page_object.
  destruct (cast_handle obj) as [h|]; [|by eexists].
  destruct (isPageObject h); simpl; [|by eexists].
  rewrite insertPage_reject by lia. by eexists.
Qed.

(** [setPage] always behaves as the insertion followed by the deletion one
    position later: the guard [index != count()] is evaluated after the
    insertion, when the count has already grown, and so never skips the
    deletion. *)
Lemma setPage_insert_then_delete pl index obj w :
  0 <= index -> page_count w pl + 1 < Word.half ->
  setPage pl index obj w =
    (insertPage_obj pl index obj ;; deletePage pl (Word.to_size (index + 1))) w.
Proof.
  intros Hidx Hsmall. unfold setPage, bind.
  destruct (insertPage_obj pl index obj w) as [[e|[]] w'] eqn:Hins; [reflexivity|].
  rewrite count_run.
  destruct (Z.eqb_spec index (page_count w' pl)) as [Heq|Hne]; [|reflexivity].
  exfalso. rewrite (insertPage_obj_grows _ _ _ _ _ Hins) in Heq.
  destruct (insertPage_obj_reject pl w index obj) as (w'' & Hrej); [lia|].
  rewrite Hrej in Hins. discriminate.
Qed.

(** Replacement at a valid index: the new handle takes the place of the
    original occupant. *)
Lemma setPage_replaces pl w index h :
  isPageObject h = true ->
  0 <= index < page_count w pl -> page_count w pl + 1 < Word.half ->
  NoDup (objgen <$> pages_of w pl) ->
  objgen (placed w pl h) ∉ objgen <$> pages_of w pl ->
  setPage pl index (py_handle h) w =
    (inr tt, with_pages (booked w pl h) pl
               (take (Z.to_nat index) (pages_of w pl) ++
                placed w pl h :: drop (S (Z.to_nat index)) (pages_of w pl))).
Proof.
  intros Hpage Hidx Hsmall Hnd Hfresh.
  rewrite setPage_insert_then_delete by lia. unfold bind.
  rewrite insertPage_obj_page, insertPage_run by (done || lia).
  rewrite to_size_small by (unfold Word.half, Word.modulus in *; lia).
  destruct (lookup_lt_is_Some_2 (pages_of w pl) (Z.to_nat index))
    as [old Hold]; [unfold page_count in Hidx; lia|].
  pose proof (take_drop_middle _ _ _ Hold) as Hsplit.
  assert (Hlen : length (take (Z.to_nat index) (pages_of w pl)) = Z.to_nat index).
  { apply length_take_le. apply lookup_lt_Some in Hold. lia. }
  set (l1 := take (Z.to_nat index) (pages_of w pl)) in *.
  set (l2 := drop (S (Z.to_nat index)) (pages_of w pl)) in *.
  assert (Hins : Engine.insert_at (Z.to_nat index) (placed w pl h) (pages_of w pl)
                 = (l1 ++ [placed w pl h]) ++ old :: l2).
  { rewrite <- Hsplit, <- Hlen, insert_at_app. by rewrite <- app_assoc. }
  rewrite Hins.
  set (w1 := with_pages (booked w pl h) pl ((l1 ++ [placed w pl h]) ++ old :: l2)).
  assert (Hlen1 : length (l1 ++ [placed w pl h]) = Z.to_nat (index + 1)).
  { rewrite length_app, Hlen. simpl. lia. }
  assert (Htot : length (pages_of w pl) = (length l1 + S (length l2))%nat).
  { rewrite <- Hsplit, length_app. reflexivity. }
  rewrite deletePage_run.
  - unfold w1. rewrite pages_of_with_pages, <- Hlen1, erase_at_app.
    unfold with_pages. rewrite next_of_set_doc. simpl.
    unfold set_doc. simpl. rewrite insert_insert_eq.
    by rewrite <- app_assoc.
  - unfold w1. rewrite page_count_with_pages, !length_app. simpl.
    unfold page_count in *. lia.
  - unfold w1. rewrite page_count_with_pages, !length_app. simpl.
    unfold page_count in *. lia.
  - unfold w1. rewrite pages_of_with_pages, <- Hins, insert_at_perm, fmap_cons.
    by apply NoDup_cons.
Qed.

(** At the append position the page is appended, and then [deletePage] is
    still called, one past the new last page: the call ends in the
    out-of-range error. *)
Lemma setPage_at_count pl w h :
  isPageObject h = true -> page_count w pl + 1 < Word.half ->
  objgen (placed w pl h) ∉ objgen <$> pages_of w pl ->
  setPage pl (page_count w pl) (py_handle h) w =
    (inl index_error,
     with_pages (booked w pl h) pl (pages_of w pl ++ [placed w pl h])).
Proof.
  intros Hpage Hsmall Hfresh.
  assert (Hn : 0 <= page_count w pl) by (unfold page_count; lia).
  rewrite setPage_insert_then_delete by lia. unfold bind.
  rewrite insertPage_obj_page, (insertPage_append _ _ _ _ eq_refl Hfresh) by done.
  rewrite to_size_small by (unfold Word.half, Word.modulus in *; lia).
  apply deletePage_reject.
  rewrite page_count_with_pages, length_app. simpl.
  unfold page_count in *. lia.
Qed.

(** At the append position a handle that the engine refuses ends the call
    in the engine's error. *)
Lemma setPage_at_count_refused pl w h :
  isPageObject h = true -> page_count w pl + 1 < Word.half ->
  objgen (placed w pl h) ∈ objgen <$> pages_of w pl ->
  setPage pl (page_count w pl) (py_handle h) w = (inl qpdf_error, booked w pl h).
Proof.
  intros Hpage Hsmall Hin.
  assert (Hn : 0 <= page_count w pl) by (unfold page_count; lia).
  rewrite setPage_insert_then_delete by lia. unfold bind.
  by rewrite insertPage_obj_page,
    (insertPage_append_refused _ _ _ _ eq_refl Hin) by done.
Qed.

(** C1: [setPage] at the page count of the moment of the call (the append
    position) never returns normally; when the engine accepts the handle
    (its object is not yet in the collection) it appends the page and then
    raises the out-of-range error, where the specification has the page
    appended with no deletion and no error: the count the guard compares
    the index with is read after the insertion. *)
Theorem setPage_append_position_raises (pl : PageList) (w : World)
  (h : QPDFObjectHandle) :
  isPageObject h = true -> page_count w pl + 1 < Word.half ->
  (exists e w',
     setPage pl (page_count w pl) (py_handle h) w = (inl e, w')) /\
  (objgen (placed w pl h) ∉ objgen <$> pages_of w pl ->
   exists w',
     setPage pl (page_count w pl) (py_handle h) w = (inl index_error, w') /\
     pages_of w' pl = pages_of w pl ++ [placed w pl h] /\
     page_count w' pl = page_count w pl + 1).
Proof.
  intros Hpage Hsmall. split.
  - destruct (decide (objgen (placed w pl h) ∈ objgen <$> pages_of w pl))
      as [Hin|Hfresh].
    + rewrite setPage_at_count_refused by done. by eexists _, _.
    + rewrite setPage_at_count by done. by eexists _, _.
  - intros Hfresh.
    exists (with_pages (booked w pl h) pl (pages_of w pl ++ [placed w pl h])).
    split; [by apply setPage_at_count|].
    split; [apply pages_of_with_pages|].
    rewrite page_count_with_pages, length_app. simpl.
    unfold page_count. lia.
Qed.

Lemma setPage_append_position_raises_witness :
  page_count Samples.w3 Samples.pl1 = 3 /\
  exists w',
    setPage Samples.pl1 3 (py_handle Samples.foreign) Samples.w3
      = (inl index_error, w') /\
    pages_of w' Samples.pl1 =
      [Samples.pg 1 0; Samples.pg 1 1; Samples.pg 1 2; Samples.foreign].
Proof.
  split; [reflexivity|].
  destruct (proj2 (setPage_append_position_raises Samples.pl1 Samples.w3
                     Samples.foreign eq_refl eq_refl))
    as (w' & Hrun & Hpages & _).
  - refine (bool_decide_unpack _ _). vm_compute. exact I.
  - exists w'. split; [exact Hrun|exact Hpages].
Defined.

End Replace.

(** ** Insertion past the end *)

Section PastTheEnd.

(** A [size_t] index at or above [2^63] that stays negative after the
    count is added is rejected as well. *)
Lemma insertPage_reject_high pl w index page :
  page_count w pl < Word.half ->
  Word.half <= index < Word.modulus - page_count w pl ->
  insertPage pl index page w = (inl index_error, booked w pl page).
Proof.
  intros Hsmall Hidx.
  assert (Hhalf : Word.modulus = 2 * Word.half) by reflexivity.
  assert (Hn : 0 <= page_count w pl) by (unfold page_count; lia).
  rewrite insertPage_unfold.
  assert (Hne : (index =? page_count w pl) = false) by lia.
  rewrite Hne. simpl.
  rewrite to_ssize_high by lia.
  rewrite getPage_negative; rewrite ?page_count_booked;
    [|lia|unfold Word.is_ssize; lia].
  destruct (Z.ltb_spec (index - Word.modulus + page_count w pl) 0); [|lia].
  reflexivity.
Qed.

(** Between the count and [2^64 - count] the index is rejected, after the
    ownership bookkeeping has been done: the collection is unchanged, but a
    fresh object number has been consumed or a reference on the foreign
    owner has been taken. *)
Lemma insertPage_reject_bookkeeping pl w index page :
  page_count w pl < Word.half ->
  page_count w pl < index < Word.modulus - page_count w pl ->
  exists w', insertPage pl index page w = (inl index_error, w') /\
    pages_of w' pl = pages_of w pl /\
    (owning_qpdf page = qpdf pl ->
       next_of w' pl = S (next_of w pl) /\ py_refs w' = py_refs w) /\
    (owning_qpdf page <> qpdf pl ->
       next_of w' pl = next_of w pl /\
       py_refs w' = owning_qpdf page :: py_refs w).
Proof.
  intros Hsmall Hidx. exists (booked w pl page).
  split.
  { destruct (Z.lt_ge_cases index Word.half).
    - apply insertPage_reject. lia.
    - apply insertPage_reject_high; lia. }
  split; [apply pages_of_booked|].
  rewrite next_of_booked, py_refs_booked.
  split; intros Hown.
  - by rewrite bool_decide_eq_true_2.
  - by rewrite bool_decide_eq_false_2.
Qed.

(** From [2^64 - count] upwards the [size_t] index passed to [getPage] is
    read as a negative [ssize_t], resolves to an existing page, and the
    insertion goes through. *)
Lemma insertPage_wraps pl w index page :
  page_count w pl < Word.half ->
  Word.modulus - page_count w pl <= index < Word.modulus ->
  NoDup (objgen <$> pages_of w pl) ->
  objgen (placed w pl page) ∉ objgen <$> pages_of w pl ->
  insertPage pl index page w =
    (inr tt, with_pages (booked w pl page) pl
               (Engine.insert_at
                  (Z.to_nat (index - Word.modulus + page_count w pl))
                  (placed w pl page) (pages_of w pl))).
Proof.
  intros Hsmall Hidx Hnd Hfresh.
  assert (Hhalf : Word.modulus = 2 * Word.half) by reflexivity.
  rewrite insertPage_unfold.
  assert (Hne : (index =? page_count w pl) = false) by lia.
  rewrite Hne. simpl.
  rewrite to_ssize_high by lia.
  rewrite getPage_negative; rewrite ?page_count_booked;
    [|lia|unfold Word.is_ssize; lia].
  destruct (Z.ltb_spec (index - Word.modulus + page_count w pl) 0); [lia|].
  destruct (lookup_lt_is_Some_2 (pages_of w pl)
              (Z.to_nat (index - Word.modulus + page_count w pl)))
    as [refpage Href]; [unfold page_count in *; lia|].
  rewrite (getPage_hit _ _ _ refpage);
    rewrite ?page_count_booked, ?pages_of_booked; [|lia|lia|exact Href].
  unfold Engine.addPageAt, with_pages.
  fold (pages_of (booked w pl page) pl). fold (next_of (booked w pl page) pl).
  rewrite pages_of_booked, (findPage_at _ _ _ Hnd Href),
    (findPage_fresh _ _ Hfresh).
  reflexivity.
Qed.

(** In that range the out-of-range error is never what [insertPage] ends
    in: the wrapped index names an existing page, and the call is left to
    the engine. *)
Lemma insertPage_wraps_no_index_error pl w index page :
  page_count w pl < Word.half ->
  Word.modulus - page_count w pl <= index < Word.modulus ->
  fst (insertPage pl index page w) <> inl index_error.
Proof.
  intros Hsmall Hidx.
  assert (Hhalf : Word.modulus = 2 * Word.half) by reflexivity.
  rewrite insertPage_unfold.
  assert (Hne : (index =? page_count w pl) = false) by lia.
  rewrite Hne. simpl.
  rewrite to_ssize_high by lia.
  rewrite getPage_negative; rewrite ?page_count_booked;
    [|lia|unfold Word.is_ssize; lia].
  destruct (Z.ltb_spec (index - Word.modulus + page_count w pl) 0); [lia|].
  destruct (lookup_lt_is_Some_2 (pages_of w pl)
              (Z.to_nat (index - Word.modulus + page_count w pl)))
    as [refpage Href]; [unfold page_count in *; lia|].
  rewrite (getPage_hit _ _ _ refpage);
    rewrite ?page_count_booked, ?pages_of_booked; [|lia|lia|exact Href].
  unfold Engine.addPageAt.
  fold (pages_of (booked w pl page) pl). rewrite pages_of_booked.
  destruct (findPage_found _ _ _ Href) as (pos & -> & _).
  by destruct (Engine.findPage _ (placed w pl page)).
Qed.

(** C10: an index from [2^64 - count] upwards is strictly greater than the
    count, and yet [insertPage] does not raise the out-of-range error: when
    the engine accepts the handle (its object is not yet in the collection)
    the page is placed before the page at [index - 2^64 + count] and the
    count grows by one, where the specification has an out-of-range error
    and an unchanged collection. *)
Theorem insertPage_huge_index_inserts (pl : PageList) (w : World) (index : Z)
  (page : QPDFObjectHandle) :
  page_count w pl < Word.half ->
  Word.modulus - page_count w pl <= index < Word.modulus ->
  NoDup (objgen <$> pages_of w pl) ->
  page_count w pl < index /\
  fst (insertPage pl index page w) <> inl index_error /\
  (objgen (placed w pl page) ∉ objgen <$> pages_of w pl ->
   exists w',
     insertPage pl index page w = (inr tt, w') /\
     pages_of w' pl =
       Engine.insert_at (Z.to_nat (index - Word.modulus + page_count w pl))
         (placed w pl page) (pages_of w pl) /\
     page_count w' pl = page_count w pl + 1).
Proof.
  intros Hsmall Hidx Hnd.
  assert (Hhalf : Word.modulus = 2 * Word.half) by reflexivity.
  split; [lia|].
  split; [by apply insertPage_wraps_no_index_error|].
  intros Hfresh.
  eexists. split; [by apply insertPage_wraps|].
  split; [apply pages_of_with_pages|].
  rewrite page_count_with_pages, length_insert_at.
  unfold page_count. lia.
Qed.

Lemma insertPage_huge_index_inserts_witness :
  page_count Samples.w3 Samples.pl1 < Word.modulus - 1 /\
  exists w',
    insertPage Samples.pl1 (Word.modulus - 1) Samples.foreign Samples.w3
      = (inr tt, w') /\
    pages_of w' Samples.pl1 =
      [Samples.pg 1 0; Samples.pg 1 1; Samples.foreign; Samples.pg 1 2].
Proof.
  destruct (insertPage_huge_index_inserts Samples.pl1 Samples.w3
              (Word.modulus - 1) Samples.foreign)
    as (Hgt & _ & Hins).
  - reflexivity.
  - split; [intros Hc; discriminate Hc|reflexivity].
  - refine (bool_decide_unpack _ _). vm_compute. exact I.
  - destruct Hins as (w' & Hrun & Hpages & _).
    + refine (bool_decide_unpack _ _). vm_compute. exact I.
    + split; [exact Hgt|]. exists w'. split; [exact Hrun|exact Hpages].
Defined.

End PastTheEnd.

(** ** Slice assignment: validation before mutation *)

Section Validation.

Lemma assert_pyobject_is_page_run obj w :
  assert_pyobject_is_page obj w =
    (if is_page_object obj then inr tt else inl type_error, w).
Proof.
  unfold assert_pyobject_is_page, is_page_object.
  destruct (cast_handle obj) as [h|]; [|reflexivity].
  destruct (isPageObject h); reflexivity.
Qed.

Lemma unpack_iterable_ok other w :
  Forall (fun o => is_page_object o = true) other ->
  unpack_iterable other w = (inr other, w).
Proof.
  induction 1 as [|o other Ho _ IH]; [reflexivity|].
  simpl. unfold bind. rewrite assert_pyobject_is_page_run, Ho, IH. reflexivity.
Qed.

Lemma unpack_iterable_bad other w :
  Exists (fun o => is_page_object o = false) other ->
  unpack_iterable other w = (inl type_error, w).
Proof.
  induction 1 as [o other Ho|o other _ IH];
    simpl; unfold bind; rewrite assert_pyobject_is_page_run.
  - by rewrite Ho.
  - destruct (is_page_object o); [by rewrite IH|reflexivity].
Qed.

Lemma pages_or_not (other : list py_object) :
  Forall (fun o => is_page_object o = true) other \/
  Exists (fun o => is_page_object o = false) other.
Proof.
  induction other as [|o other [IH|IH]].
  - left. constructor.
  - destruct (is_page_object o) eqn:Ho.
    + left. by constructor.
    + right. by constructor.
  - right. by apply Exists_cons_tl.
Qed.

(** The first loop never touches the world. *)
Lemma unpack_iterable_pure other w : snd (unpack_iterable other w) = w.
Proof.
  destruct (pages_or_not other) as [Hall|Hex].
  - by rewrite unpack_iterable_ok.
  - by rewrite unpack_iterable_bad.
Qed.

(** C5: [setPagesFromIterable] checks every source item before it mutates
    anything, so an item that is not a page makes the call fail (with the
    type error, once the slice itself resolves) in an unchanged world; and
    on an extended slice (step other than 1) a source whose length differs
    from the slice length makes the call fail, with the length-mismatch
    error when all items are pages, again in an unchanged world. *)
Theorem setPagesFromIterable_checks_first (pl : PageList) (slice : py_slice)
  (other : list py_object) (w : World) :
  (Exists (fun o => is_page_object o = false) other ->
     exists e, setPagesFromIterable pl slice other w = (inl e, w) /\
       (is_Some (Slice.compute slice (page_count w pl)) -> e = type_error)) /\
  (forall start stop step slicelength,
     Slice.compute slice (page_count w pl)
       = Some (start, stop, step, slicelength) ->
     step <> 1 -> Z.of_nat (length other) <> slicelength ->
     exists e, setPagesFromIterable pl slice other w = (inl e, w) /\
       (Forall (fun o => is_page_object o = true) other -> e = value_error)).
Proof.
  split.
  - intros Hbad. unfold setPagesFromIterable, bind. rewrite count_run.
    destruct (Slice.compute slice (page_count w pl))
      as [[[[start stop] step] slicelength]|].
    + rewrite (unpack_iterable_bad _ _ Hbad). by exists type_error.
    + exists error_already_set. split; [reflexivity|].
      intros [? Hc]. discriminate Hc.
  - intros start stop step slicelength Hcompute Hstep Hlen.
    unfold setPagesFromIterable, bind. rewrite count_run, Hcompute.
    destruct (pages_or_not other) as [Hall|Hex].
    + rewrite (unpack_iterable_ok _ _ Hall).
      assert (H1 : (step =? 1) = false) by lia.
      assert (H2 : (Z.of_nat (length other) =? slicelength) = false) by lia.
      rewrite H1, H2. simpl. by exists value_error.
    + rewrite (unpack_iterable_bad _ _ Hex). exists type_error.
      split; [reflexivity|]. intros Hall.
      apply Exists_exists in Hex as (o & Ho & Hfalse).
      rewrite Forall_forall in Hall. specialize (Hall o Ho). congruence.
Qed.

Lemma setPagesFromIterable_checks_first_witness :
  (exists e,
     setPagesFromIterable Samples.pl1 (mkSlice (Some 0) (Some 2) None)
       [py_handle Samples.foreign; py_other] Samples.w3 = (inl e, Samples.w3) /\
     e = type_error) /\
  (exists e,
     setPagesFromIterable Samples.pl1 (mkSlice None None (Some 2))
       [py_handle Samples.foreign] Samples.w3 = (inl e, Samples.w3) /\
     e = value_error).
Proof.
  split.
  - destruct (proj1 (setPagesFromIterable_checks_first Samples.pl1
                (mkSlice (Some 0) (Some 2) None)
                [py_handle Samples.foreign; py_other] Samples.w3))
      as (e & Hrun & He).
    + apply Exists_cons_tl, Exists_cons_hd. reflexivity.
    + exists e. split; [exact Hrun|]. apply He. vm_compute. eauto.
  - destruct (proj2 (setPagesFromIterable_checks_first Samples.pl1
                (mkSlice None None (Some 2))
                [py_handle Samples.foreign] Samples.w3) 0 3 2 2)
      as (e & Hrun & He).
    + reflexivity.
    + intros Hc; discriminate Hc.
    + intros Hc; discriminate Hc.
    + exists e. split; [exact Hrun|]. apply He.
      apply Forall_cons. split; [reflexivity|apply Forall_nil; constructor].
Defined.

End Validation.

(** ** Extending a list from a list *)

Section Extend.

Lemma pages_of_alias w (a b : PageList) :
  qpdf a = qpdf b -> pages_of w a = pages_of w b.
Proof. intros Heq. unfold pages_of. by rewrite Heq. Qed.










End Extend.

(** ** Slice assignment: the simple slice *)

Section SimpleSlice.

Lemma for_loop_step first todo body w :
  for_loop first (S todo) body w =
    match body first w with
    | (inl e, w') => (inl e, w')
    | (inr _, w') => for_loop (S first) todo body w'
    end.
Proof. reflexivity. Qed.

Lemma NoDup_without_middle {A} (a x b : list A) :
  NoDup (a ++ x ++ b) -> NoDup (a ++ b).
Proof.
  intros Hnd. eapply sublist_NoDup; [exact Hnd|]. apply sublist_app; [reflexivity|].
  apply sublist_inserts_l. reflexivity.
Qed.

Lemma NoDup_middle_fresh {A} (a b : list A) x :
  NoDup (a ++ x :: b) -> x ∉ a ++ b.
Proof.
  intros Hnd Hin. apply NoDup_app in Hnd as (_ & Hdisj & Hb).
  apply NoDup_cons in Hb as [Hx _].
  apply elem_of_app in Hin as [Hin|Hin]; [|done].
  apply (Hdisj x Hin). left.
Qed.

Lemma stamp_length g next srcs : length (stamp g next srcs) = length srcs.
Proof.
  revert next. induction srcs as [|h rest IH]; intros next; [reflexivity|].
  simpl. case_bool_decide; simpl; by rewrite IH.
Qed.

Lemma stamp_cons_placed w pl h rest :
  stamp (qpdf pl) (next_of w pl) (h :: rest) =
    placed w pl h :: stamp (qpdf pl) (next_of (booked w pl h) pl) rest.
Proof.
  simpl. unfold placed. rewrite next_of_booked. by case_bool_decide.
Qed.

Lemma own_count_cons g h rest :
  own_count g (h :: rest) =
    ((if bool_decide (owning_qpdf h = g) then 1 else 0) + own_count g rest)%nat.
Proof.
  unfold own_count. rewrite filter_cons. case_bool_decide as Hown.
  - by rewrite decide_True.
  - by rewrite decide_False.
Qed.

(** The insertion loop, started when [done_] sources have been placed as
    [ins] between [pre] and [post]. *)
Lemma simple_insert_loop pl start (rest : list QPDFObjectHandle) :
  forall v (pre ins post : list QPDFObjectHandle)
         (done_ results : list py_object),
  results = done_ ++ (py_handle <$> rest) ->
  Forall (fun h => isPageObject h = true) rest ->
  pages_of v pl = pre ++ ins ++ post ->
  start = Z.of_nat (length pre) ->
  length ins = length done_ ->
  Z.of_nat (length pre + length ins + length rest + length post) < Word.half ->
  NoDup (objgen <$> (pre ++ ins ++ stamp (qpdf pl) (next_of v pl) rest ++ post)) ->
  exists v',
    for_loop (length done_) (length rest)
      (fun i => insertPage_obj pl (Word.to_size (start + Z.of_nat i))
                               (list_item results i)) v = (inr tt, v') /\
    pages_of v' pl =
      pre ++ ins ++ stamp (qpdf pl) (next_of v pl) rest ++ post /\
    next_of v' pl = (next_of v pl + own_count (qpdf pl) rest)%nat.
Proof.
  induction rest as [|h rest IH];
    intros v pre ins post done_ results Hres Hpages Hv Hstart Hlen Hsmall Hnd.
  - exists v. split; [reflexivity|]. split; [exact Hv|].
    unfold own_count. simpl. lia.
  - apply Forall_cons in Hpages as [Hh Hpages].
    assert (Hhalf : Word.half < Word.modulus) by reflexivity.
    simpl length in *. rewrite for_loop_step.
    assert (Hitem : list_item results (length done_) = py_handle h).
    { unfold list_item. subst results. rewrite fmap_cons.
      by rewrite list_lookup_middle. }
    rewrite Hitem, insertPage_obj_page by exact Hh.
    rewrite to_size_small by lia.
    rewrite stamp_cons_placed in Hnd.
    assert (Hcount : page_count v pl
                     = Z.of_nat (length pre + length ins + length post)).
    { unfold page_count. rewrite Hv, !length_app. lia. }
    assert (Hnd0 : NoDup (objgen <$> pages_of v pl)).
    { rewrite Hv, (app_assoc pre ins post), !fmap_app.
      rewrite (app_assoc pre ins), !fmap_app in Hnd.
      exact (NoDup_without_middle _ _ _ Hnd). }
    assert (Hfresh : objgen (placed v pl h) ∉ objgen <$> pages_of v pl).
    { rewrite Hv. intros Hin. pose proof Hnd as Hmid.
      replace (pre ++ ins ++ (placed v pl h
                 :: stamp (qpdf pl) (next_of (booked v pl h) pl) rest) ++ post)
        with ((pre ++ ins) ++ placed v pl h
                :: (stamp (qpdf pl) (next_of (booked v pl h) pl) rest ++ post))
        in Hmid by (by rewrite <- !app_assoc).
      rewrite fmap_app, fmap_cons in Hmid.
      apply NoDup_middle_fresh in Hmid. apply Hmid.
      rewrite !fmap_app, !elem_of_app in *. tauto. }
    rewrite insertPage_run by (done || lia).
    replace (Z.to_nat (start + Z.of_nat (length done_)))
      with (length (pre ++ ins)) by (rewrite length_app; lia).
    rewrite Hv, app_assoc, insert_at_app.
    set (v1 := with_pages (booked v pl h) pl ((pre ++ ins) ++ placed v pl h :: post)).
    assert (Hnext1 : next_of v1 pl = next_of (booked v pl h) pl).
    { unfold v1. by rewrite next_of_with_pages. }
    destruct (IH v1 pre (ins ++ [placed v pl h]) post
                (done_ ++ [py_handle h]) results) as (v' & Hrun & Hp & Hn).
    + subst results. by rewrite <- app_assoc.
    + exact Hpages.
    + unfold v1. rewrite pages_of_with_pages. by rewrite <- !app_assoc.
    + exact Hstart.
    + rewrite !length_app. simpl. lia.
    + rewrite length_app. simpl. lia.
    + rewrite Hnext1. by rewrite <- !app_assoc.
    + exists v'. rewrite length_app in Hrun. simpl in Hrun.
      replace (length done_ + 1)%nat with (S (length done_)) in Hrun by lia.
      split; [exact Hrun|]. split.
      * rewrite Hp, Hnext1, stamp_cons_placed. by rewrite <- !app_assoc.
      * rewrite Hn, Hnext1, next_of_booked, own_count_cons.
        case_bool_decide; lia.
Qed.

(** The deletion loop: [mid] is removed, one page at a time, always at the
    position where it starts. *)
Lemma simple_delete_loop pl del_start (mid : list QPDFObjectHandle) :
  forall v first (pre post : list QPDFObjectHandle),
  pages_of v pl = pre ++ mid ++ post ->
  del_start = Z.of_nat (length pre) ->
  page_count v pl < Word.half ->
  NoDup (objgen <$> pages_of v pl) ->
  exists v',
    for_loop first (length mid) (fun _ => deletePage pl del_start) v
      = (inr tt, v') /\
    pages_of v' pl = pre ++ post /\
    next_of v' pl = next_of v pl.
Proof.
  induction mid as [|a mid IH]; intros v first pre post Hv Hstart Hsmall Hnd.
  - exists v. split; [reflexivity|]. split; [exact Hv|reflexivity].
  - simpl length. rewrite for_loop_step.
    assert (Hcount : page_count v pl
                     = Z.of_nat (length pre + S (length mid + length post))).
    { unfold page_count. rewrite Hv, !length_app. simpl.
      rewrite ?length_app. lia. }
    rewrite deletePage_run by (done || lia).
    replace (Z.to_nat del_start) with (length pre) by lia.
    rewrite Hv. change ((a :: mid) ++ post) with (a :: mid ++ post).
    rewrite erase_at_app.
    set (v1 := with_pages v pl (pre ++ mid ++ post)).
    destruct (IH v1 (S first) pre post) as (v' & Hrun & Hp & Hn).
    + unfold v1. by rewrite pages_of_with_pages.
    + exact Hstart.
    + unfold v1. rewrite page_count_with_pages, !length_app. lia.
    + unfold v1. rewrite pages_of_with_pages.
      rewrite Hv in Hnd. change ((a :: mid) ++ post) with ([a] ++ mid ++ post) in Hnd.
      rewrite fmap_app in Hnd |- *. rewrite fmap_app in Hnd.
      exact (NoDup_without_middle _ _ _ Hnd).
    + exists v'. split; [exact Hrun|]. split; [exact Hp|].
      rewrite Hn. unfold v1. by rewrite next_of_with_pages.
Qed.

(** A slice whose resolved step is [1] lies inside the collection. *)
Lemma compute_simple_bounds slice n start stop slicelength :
  0 <= n < Word.half ->
  Slice.compute slice n = Some (start, stop, 1, slicelength) ->
  0 <= start <= n /\ 0 <= slicelength /\ start + slicelength <= n.
Proof.
  intros Hn. unfold Slice.compute, Slice.unpack.
  set (step := match slice_step slice with
               | Some v => Z.max (- Slice.ssize_max) (Slice.clamp v)
               | None => 1
               end).
  assert (Hstep : - Slice.ssize_max <= step <= Slice.ssize_max).
  { unfold step. destruct (slice_step slice).
    - unfold Slice.clamp, Slice.ssize_max, Slice.ssize_min, Word.half. lia.
    - unfold Slice.ssize_max, Word.half. lia. }
  destruct (Z.eqb_spec step 0) as [|Hnz]; [discriminate|].
  set (st := match slice_start slice with
             | Some v => Slice.clamp v
             | None => if step <? 0 then Slice.ssize_max else 0
             end).
  set (sp := match slice_stop slice with
             | Some v => Slice.clamp v
             | None => if step <? 0 then Slice.ssize_min else Slice.ssize_max
             end).
  intros Heq. injection Heq as Hstart Hstop Hone Hlen.
  assert (Hs1 : step = 1).
  { unfold Word.to_size in Hone. unfold Slice.ssize_max, Word.half in Hstep.
    destruct (Z.lt_ge_cases step 0) as [Hneg|Hpos].
    - rewrite <- (Z_mod_plus_full step 1 Word.modulus) in Hone.
      rewrite Z.mod_small in Hone; unfold Word.modulus in *; lia.
    - rewrite Z.mod_small in Hone; unfold Word.modulus in *; lia. }
  rewrite Hs1 in *.
  assert (Hadj : forall v, 0 <= Slice.adjust_bound n 1 v <= n).
  { intros v. unfold Slice.adjust_bound. change (1 <? 0) with false. cbv iota.
    destruct (Z.ltb_spec v 0).
    - destruct (Z.ltb_spec (v + n) 0); lia.
    - destruct (Z.geb_spec v n); lia. }
  pose proof (Hadj st) as Ha. pose proof (Hadj sp) as Hb.
  unfold Slice.adjusted_length in Hlen. change (1 <? 0) with false in Hlen.
  cbv iota in Hlen. rewrite Z.div_1_r in Hlen.
  assert (Hhalf : Word.half < Word.modulus) by reflexivity.
  rewrite to_size_small in Hstart by lia.
  destruct (Z.ltb_spec (Slice.adjust_bound n 1 st) (Slice.adjust_bound n 1 sp));
    rewrite to_size_small in Hlen by lia; lia.
Qed.

(** Fresh copies never collide: the stamped sources have pairwise distinct
    objects, distinct from those of the collection, as soon as the foreign
    ones do. *)
Lemma stamp_NoDup g (srcs : list QPDFObjectHandle) :
  forall next (base : list QPDFObjectHandle),
  Forall (fun h => owning_qpdf h = g -> (objid h < next)%nat) base ->
  NoDup (objgen <$> (base ++ foreign_sources g srcs)) ->
  NoDup (objgen <$> (base ++ stamp g next srcs)).
Proof.
  induction srcs as [|h rest IH]; intros next base Halloc Hnd.
  - simpl. unfold foreign_sources in Hnd. by rewrite filter_nil in Hnd.
  - simpl. unfold foreign_sources in *. rewrite filter_cons in Hnd.
    case_bool_decide as Hown.
    + rewrite decide_False in Hnd by (intros Hc; by apply Hc).
      set (c := mkHandle g next (body h) (isPageObject h)).
      replace (base ++ c :: stamp g (S next) rest)
        with ((base ++ [c]) ++ stamp g (S next) rest)
        by (by rewrite <- app_assoc).
      apply IH.
      * apply Forall_app. split.
        -- eapply Forall_impl; [exact Halloc|]. intros x Hx Hg.
           specialize (Hx Hg). lia.
        -- apply Forall_cons. split; [simpl; lia|constructor].
      * rewrite <- app_assoc.
        change ([c] ++ filter (fun h0 => owning_qpdf h0 <> g) rest)
          with (c :: filter (fun h0 => owning_qpdf h0 <> g) rest).
        rewrite fmap_app, fmap_cons.
        rewrite fmap_app in Hnd.
        apply NoDup_app in Hnd as (Hb & Hdisj & Hf).
        apply NoDup_app. split; [exact Hb|]. split.
        -- intros x Hx Hin. apply elem_of_cons in Hin as [->|Hin].
           ++ apply list_elem_of_fmap in Hx as (y & Hy & Hyin).
              rewrite Forall_forall in Halloc. specialize (Halloc y Hyin).
              unfold objgen in Hy. simpl in Hy. injection Hy as Hg Hid.
              specialize (Halloc (eq_sym Hg)). lia.
           ++ by apply (Hdisj x).
        -- apply NoDup_cons. split; [|exact Hf].
           intros Hin. apply list_elem_of_fmap in Hin as (y & Hy & Hyin).
           apply list_elem_of_filter in Hyin as [Hforeign _].
           unfold objgen in Hy. simpl in Hy. injection Hy as Hg _.
           by apply Hforeign.
    + rewrite decide_True in Hnd by exact Hown.
      replace (base ++ h :: stamp g next rest)
        with ((base ++ [h]) ++ stamp g next rest)
        by (by rewrite <- app_assoc).
      apply IH.
      * apply Forall_app. split; [exact Halloc|].
        apply Forall_cons. split; [done|constructor].
      * by rewrite <- app_assoc.
Qed.


Lemma handles_are_page_objects (srcs : list QPDFObjectHandle) :
  Forall (fun h => isPageObject h = true) srcs ->
  Forall (fun o => is_page_object o = true) (py_handle <$> srcs).
Proof.
  intros Hall. apply Forall_fmap. eapply Forall_impl; [exact Hall|].
  intros h Hh. exact Hh.
Qed.

(** The simple-slice branch as a whole: the world [w1] after the insertion
    loop, and the world [w2] after the deletion loop that follows it. *)
Lemma simple_slice_run pl w slice (srcs : list QPDFObjectHandle)
  start stop slicelength :
  wf w pl ->
  Slice.compute slice (page_count w pl) = Some (start, stop, 1, slicelength) ->
  Forall (fun h => isPageObject h = true) srcs ->
  NoDup (objgen <$> (pages_of w pl ++ foreign_sources (qpdf pl) srcs)) ->
  page_count w pl + Z.of_nat (length srcs) < Word.half ->
  let ins := stamp (qpdf pl) (next_of w pl) srcs in
  let other := py_handle <$> srcs in
  exists w1 w2,
    simple_insert pl start other w = (inr tt, w1) /\
    pages_of w1 pl =
      take (Z.to_nat start) (pages_of w pl) ++ ins ++
      drop (Z.to_nat start) (pages_of w pl) /\
    simple_delete pl (Word.to_size (start + Z.of_nat (length other)))
      slicelength w1 = (inr tt, w2) /\
    pages_of w2 pl =
      take (Z.to_nat start) (pages_of w pl) ++ ins ++
      drop (Z.to_nat (start + slicelength)) (pages_of w pl) /\
    next_of w2 pl = (next_of w pl + own_count (qpdf pl) srcs)%nat /\
    setPagesFromIterable pl slice other w = (inr tt, w2).
Proof.
  intros [Hnd Halloc] Hcompute Hpages Hforeign Hsmall ins other.
  assert (Hn : 0 <= page_count w pl) by (unfold page_count; lia).
  assert (Hn' : 0 <= page_count w pl < Word.half) by lia.
  destruct (compute_simple_bounds _ _ _ _ _ Hn' Hcompute)
    as (Hstart & Hlen & Hend).
  assert (Hhalf : Word.half < Word.modulus) by reflexivity.
  set (pre := take (Z.to_nat start) (pages_of w pl)).
  set (post := drop (Z.to_nat start) (pages_of w pl)).
  set (mid := take (Z.to_nat slicelength) post).
  set (tail := drop (Z.to_nat slicelength) post).
  assert (Hsplit : pages_of w pl = pre ++ post) by (symmetry; apply take_drop).
  assert (Hpost : post = mid ++ tail) by (symmetry; apply take_drop).
  assert (Hlpre : length pre = Z.to_nat start).
  { apply length_take_le. unfold page_count in *. lia. }
  assert (Hlpost : (length pre + length post)%nat = length (pages_of w pl)).
  { rewrite <- length_app. unfold pre, post. by rewrite take_drop. }
  assert (Hlmid : length mid = Z.to_nat slicelength).
  { apply length_take_le. unfold page_count in *. lia. }
  assert (Htail : tail = drop (Z.to_nat (start + slicelength)) (pages_of w pl)).
  { unfold tail, post. rewrite drop_drop. f_equal. lia. }
  assert (Hlins : length ins = length srcs) by apply stamp_length.
  assert (Hndall : NoDup (objgen <$> (pre ++ ins ++ post))).
  { assert (Hperm : pre ++ ins ++ post ≡ₚ pages_of w pl ++ ins).
    { rewrite Hsplit, <- app_assoc. f_equiv. apply Permutation_app_comm. }
    rewrite Hperm. by apply stamp_NoDup. }
  destruct (simple_insert_loop pl start srcs w pre [] post [] other)
    as (w1 & Hrun1 & Hp1 & Hn1); try done.
  { lia. }
  { simpl. unfold page_count in *. lia. }
  simpl in Hrun1, Hp1. fold ins in Hp1.
  assert (Hins : simple_insert pl start other w = (inr tt, w1)).
  { unfold simple_insert. unfold other at 1. by rewrite length_fmap. }
  assert (Hcount1 : page_count w1 pl
                    = page_count w pl + Z.of_nat (length srcs)).
  { unfold page_count. rewrite Hp1, !length_app. lia. }
  assert (Hlother : length other = length srcs) by apply length_fmap.
  destruct (simple_delete_loop pl (start + Z.of_nat (length other)) mid
              w1 O (pre ++ ins) tail) as (w2 & Hrun2 & Hp2 & Hn2).
  { by rewrite Hp1, <- app_assoc, Hpost. }
  { rewrite length_app. lia. }
  { lia. }
  { by rewrite Hp1. }
  assert (Hdel : simple_delete pl (Word.to_size (start + Z.of_nat (length other)))
                   slicelength w1 = (inr tt, w2)).
  { unfold simple_delete. rewrite <- Hlmid.
    rewrite to_size_small; [exact Hrun2|]. lia. }
  exists w1, w2.
  split; [exact Hins|]. split; [exact Hp1|]. split; [exact Hdel|].
  split; [by rewrite Hp2, <- app_assoc, Htail|].
  split; [by rewrite Hn2, Hn1|].
  unfold setPagesFromIterable, bind. rewrite count_run, Hcompute.
  rewrite unpack_iterable_ok by (by apply handles_are_page_objects).
  change (1 =? 1) with true. cbn [negb].
  by rewrite Hins, Hdel.
Qed.



End SimpleSlice.

(** ** Reversal *)

Section Reverse.

Lemma compute_reversed n :
  0 <= n < Word.half ->
  Slice.compute (mkSlice None None (Some (-1))) n
    = Some (Word.to_size (n - 1), Word.to_size (-1), Word.to_size (-1), n).
Proof.
  intros Hn. unfold Slice.compute, Slice.unpack.
  cbv beta iota zeta delta [slice_step slice_start slice_stop].
  assert (Hs : Z.max (- Slice.ssize_max) (Slice.clamp (-1)) = -1) by reflexivity.
  rewrite !Hs.
  change (-1 =? 0) with false. change (-1 <? 0) with true. cbv iota.
  assert (Hstart : Slice.adjust_bound n (-1) Slice.ssize_max = n - 1).
  { unfold Slice.adjust_bound. change (Slice.ssize_max <? 0) with false.
    change (-1 <? 0) with true. cbv iota.
    destruct (Z.geb_spec Slice.ssize_max n) as [_|Hc]; [reflexivity|].
    unfold Slice.ssize_max in Hc. lia. }
  assert (Hstop : Slice.adjust_bound n (-1) Slice.ssize_min = -1).
  { unfold Slice.adjust_bound. change (Slice.ssize_min <? 0) with true.
    change (-1 <? 0) with true. cbv iota.
    destruct (Z.ltb_spec (Slice.ssize_min + n) 0) as [_|Hc]; [reflexivity|].
    unfold Slice.ssize_min in Hc. lia. }
  rewrite Hstart, Hstop.
  assert (Hlen : Slice.adjusted_length (n - 1) (-1) (-1) = n).
  { unfold Slice.adjusted_length. change (-1 <? 0) with true. cbv iota.
    change (- -1) with 1. rewrite Z.div_1_r.
    destruct (Z.ltb_spec (-1) (n - 1)); lia. }
  rewrite Hlen, (to_size_small n); [reflexivity|].
  unfold Word.half, Word.modulus in *. lia.
Qed.

Lemma compute_ordinary n :
  0 <= n < Word.half ->
  Slice.compute (mkSlice (Some 0) (Some (Word.to_ssize n)) (Some 1)) n
    = Some (0, n, 1, n).
Proof.
  intros Hn. unfold Slice.compute, Slice.unpack.
  cbv beta iota zeta delta [slice_step slice_start slice_stop].
  assert (Hs : Z.max (- Slice.ssize_max) (Slice.clamp 1) = 1) by reflexivity.
  rewrite !Hs.
  change (1 =? 0) with false. cbv iota.
  change (Slice.clamp 0) with 0.
  rewrite to_ssize_nonneg by lia.
  assert (Hclamp : Slice.clamp n = n).
  { unfold Slice.clamp, Slice.ssize_max, Slice.ssize_min. lia. }
  rewrite Hclamp.
  assert (Hstart : Slice.adjust_bound n 1 0 = 0).
  { unfold Slice.adjust_bound. change (0 <? 0) with false.
    change (1 <? 0) with false. cbv iota.
    destruct (Z.geb_spec 0 n); lia. }
  assert (Hstop : Slice.adjust_bound n 1 n = n).
  { unfold Slice.adjust_bound. change (1 <? 0) with false.
    destruct (Z.ltb_spec n 0); [lia|].
    destruct (Z.geb_spec n n); [reflexivity|lia]. }
  rewrite Hstart, Hstop.
  assert (Hlen : Slice.adjusted_length 0 n 1 = n).
  { unfold Slice.adjusted_length. change (1 <? 0) with false. cbv iota.
    rewrite Z.div_1_r. destruct (Z.ltb_spec 0 n); lia. }
  rewrite Hlen, (to_size_small n); [reflexivity|].
  unfold Word.half, Word.modulus in *. lia.
Qed.

Lemma to_size_add_idemp a b :
  Word.to_size (a + Word.to_size b) = Word.to_size (a + b).
Proof. unfold Word.to_size. apply Z.add_mod_idemp_r. discriminate. Qed.

(** Reading with step [-1] from position [k - 1] down to [0]. *)
Lemma getPages_loop_backwards pl w :
  page_count w pl < Word.half ->
  forall k, (k <= length (pages_of w pl))%nat ->
  getPages_loop pl k (Word.to_size (Z.of_nat k - 1)) (Word.to_size (-1)) w
    = (inr (reverse (take k (pages_of w pl))), w).
Proof.
  intros Hsmall. unfold page_count in Hsmall.
  assert (Hhalf : Word.half < Word.modulus) by reflexivity.
  induction k as [|k IH]; intros Hk; [reflexivity|].
  cbn [getPages_loop]. unfold bind.
  replace (Z.of_nat (S k) - 1) with (Z.of_nat k) by lia.
  rewrite (to_size_small (Z.of_nat k)) by lia.
  rewrite to_ssize_nonneg by lia.
  destruct (lookup_lt_is_Some_2 (pages_of w pl) k) as [page Hpage]; [lia|].
  rewrite (getPage_hit _ _ _ page);
    [|lia|unfold page_count; lia|by rewrite Nat2Z.id].
  rewrite to_size_add_idemp.
  replace (Z.of_nat k + -1) with (Z.of_nat k - 1) by lia.
  rewrite IH by lia.
  by rewrite (take_S_r _ _ _ Hpage), reverse_snoc.
Qed.

Lemma getPages_reversed pl w :
  page_count w pl < Word.half ->
  getPages pl (mkSlice None None (Some (-1))) w
    = (inr (reverse (pages_of w pl)), w).
Proof.
  intros Hsmall. unfold getPages, bind. rewrite count_run.
  rewrite compute_reversed by (unfold page_count in *; lia).
  unfold page_count at 1. rewrite Nat2Z.id.
  rewrite getPages_loop_backwards by (done || lia).
  by rewrite take_ge by lia.
Qed.

Lemma foreign_sources_own g (l : list QPDFObjectHandle) :
  Forall (fun h => owning_qpdf h = g) l -> foreign_sources g l = [].
Proof.
  induction 1 as [|h l Hh _ IH]; [reflexivity|].
  unfold foreign_sources in *. rewrite filter_cons, decide_False; [exact IH|].
  intros Hc. by apply Hc.
Qed.

Lemma own_count_own g (l : list QPDFObjectHandle) :
  Forall (fun h => owning_qpdf h = g) l -> own_count g l = length l.
Proof.
  induction 1 as [|h l Hh _ IH]; [reflexivity|].
  rewrite own_count_cons, IH, bool_decide_eq_true_2 by exact Hh. reflexivity.
Qed.

Lemma stamp_body g (l : list QPDFObjectHandle) :
  forall next, body <$> stamp g next l = body <$> l.
Proof.
  induction l as [|h l IH]; intros next; [reflexivity|].
  simpl. case_bool_decide; rewrite !fmap_cons, IH; reflexivity.
Qed.

Lemma stamp_own g (l : list QPDFObjectHandle) :
  forall next,
  Forall (fun h => owning_qpdf h = g /\ isPageObject h = true) l ->
  Forall (fun h => owning_qpdf h = g /\ isPageObject h = true) (stamp g next l).
Proof.
  induction l as [|h l IH]; intros next Hall; [constructor|].
  apply Forall_cons in Hall as [[Hown Hpage] Hall].
  simpl. rewrite bool_decide_eq_true_2 by exact Hown.
  apply Forall_cons. split; [by split|by apply IH].
Qed.

Lemma stamp_alloc g (l : list QPDFObjectHandle) :
  forall next,
  Forall (fun h => owning_qpdf h = g -> (objid h < next + own_count g l)%nat)
         (stamp g next l).
Proof.
  induction l as [|h l IH]; intros next; [constructor|].
  simpl. rewrite own_count_cons. case_bool_decide as Hown.
  - apply Forall_cons. split; [simpl; lia|].
    eapply Forall_impl; [apply (IH (S next))|]. intros x Hx Hg.
    specialize (Hx Hg). lia.
  - apply Forall_cons. split; [done|].
    eapply Forall_impl; [apply (IH next)|]. intros x Hx Hg.
    specialize (Hx Hg). lia.
Qed.

(** One reversal: the collection becomes the fresh copies of its pages,
    read backwards, and the invariants hold again. *)
Lemma reverse_run pl w :
  wf w pl -> own_pages w pl -> 2 * page_count w pl < Word.half ->
  exists w1,
    Bindings.reverse pl w = (inr tt, w1) /\
    pages_of w1 pl =
      stamp (qpdf pl) (next_of w pl) (reverse (pages_of w pl)) /\
    wf w1 pl /\ own_pages w1 pl.
Proof.
  intros Hwf Hown Hsmall.
  assert (Hn : 0 <= page_count w pl) by (unfold page_count; lia).
  assert (Hrev : Forall (fun h => owning_qpdf h = qpdf pl /\ isPageObject h = true)
                        (reverse (pages_of w pl))) by (by apply Forall_reverse).
  assert (Hrev_own : Forall (fun h => owning_qpdf h = qpdf pl)
                            (reverse (pages_of w pl))).
  { eapply Forall_impl; [exact Hrev|]. by intros h [? _]. }
  assert (Hrev_page : Forall (fun h => isPageObject h = true)
                             (reverse (pages_of w pl))).
  { eapply Forall_impl; [exact Hrev|]. by intros h [_ ?]. }
  destruct (simple_slice_run pl w
              (mkSlice (Some 0) (Some (Word.to_ssize (page_count w pl))) (Some 1))
              (reverse (pages_of w pl)) 0 (page_count w pl) (page_count w pl))
    as (w1 & w2 & _ & _ & _ & Hp2 & Hn2 & Hrun).
  - exact Hwf.
  - apply compute_ordinary. lia.
  - exact Hrev_page.
  - rewrite (foreign_sources_own _ _ Hrev_own), app_nil_r. apply Hwf.
  - rewrite length_reverse. unfold page_count in *. lia.
  - exists w2.
    assert (Hpages2 : pages_of w2 pl =
              stamp (qpdf pl) (next_of w pl) (reverse (pages_of w pl))).
    { rewrite Hp2. change (Z.to_nat 0) with 0%nat. rewrite take_0.
      rewrite drop_ge by (unfold page_count; lia).
      by rewrite app_nil_r. }
    split.
    { unfold Bindings.reverse, bind. rewrite count_run.
      rewrite getPages_reversed by lia. exact Hrun. }
    split; [exact Hpages2|]. split.
    + split.
      * rewrite Hpages2.
        apply (stamp_NoDup (qpdf pl) (reverse (pages_of w pl))
                 (next_of w pl) []); [constructor|].
        rewrite (foreign_sources_own _ _ Hrev_own). constructor.
      * rewrite Hpages2, Hn2. apply stamp_alloc.
    + unfold own_pages. rewrite Hpages2. by apply stamp_own.
Qed.

(** X15: on a list whose pages all belong to the bound document, [reverse]
    reads the collection backwards and assigns that reading to the whole
    range as a simple slice, so the pages come out in reverse order, each as
    the fresh copy its reinsertion into the same document makes; the count
    is unchanged, and reversing twice gives back the original order of
    pages. *)
Theorem reverse_reverses (pl : PageList) (w : World) :
  wf w pl -> own_pages w pl -> 2 * page_count w pl < Word.half ->
  exists w1 w2,
    Bindings.reverse pl w = (inr tt, w1) /\
    body <$> pages_of w1 pl = reverse (body <$> pages_of w pl) /\
    page_count w1 pl = page_count w pl /\
    Bindings.reverse pl w1 = (inr tt, w2) /\
    body <$> pages_of w2 pl = body <$> pages_of w pl /\
    page_count w2 pl = page_count w pl.
Proof.
  intros Hwf Hown Hsmall.
  destruct (reverse_run pl w Hwf Hown Hsmall)
    as (w1 & Hrun1 & Hp1 & Hwf1 & Hown1).
  assert (Hcount1 : page_count w1 pl = page_count w pl).
  { unfold page_count. by rewrite Hp1, stamp_length, length_reverse. }
  destruct (reverse_run pl w1 Hwf1 Hown1) as (w2 & Hrun2 & Hp2 & _ & _); [lia|].
  assert (Hbody1 : body <$> pages_of w1 pl = reverse (body <$> pages_of w pl)).
  { by rewrite Hp1, stamp_body, fmap_reverse. }
  exists w1, w2.
  split; [exact Hrun1|]. split; [exact Hbody1|]. split; [exact Hcount1|].
  split; [exact Hrun2|]. split.
  - by rewrite Hp2, stamp_body, fmap_reverse, Hbody1, reverse_involutive.
  - unfold page_count in *.
    by rewrite Hp2, stamp_length, length_reverse.
Qed.

Lemma reverse_reverses_witness :
  exists w1,
    Bindings.reverse Samples.pl1 Samples.w3 = (inr tt, w1) /\
    body <$> pages_of w1 Samples.pl1
      = reverse (body <$> pages_of Samples.w3 Samples.pl1).
Proof.
  destruct (reverse_reverses Samples.pl1 Samples.w3)
    as (w1 & w2 & Hrun & Hbody & _).
  - exact sample_w3_wf.
  - refine (bool_decide_unpack _ _). vm_compute. exact I.
  - reflexivity.
  - exists w1. split; [exact Hrun|exact Hbody].
Defined.

End Reverse.

(** ** Extending from a list bound to another document *)

Section ExtendOther.

Lemma pages_of_frame v pl other h pages :
  qpdf other <> qpdf pl ->
  pages_of (with_pages (booked v pl h) pl pages) other = pages_of v other.
Proof.
  intros Hne. unfold pages_of, with_pages.
  rewrite doc_set_doc_ne by congruence.
  unfold booked. case_bool_decide; [|reflexivity].
  by rewrite doc_set_doc_ne by congruence.
Qed.

(** The loop of [extend], from step [i] on, when the source is another
    document and the engine accepts every remaining page: the source's
    count never changes and every remaining page is appended. *)
Lemma extend_loop pl other (source : list QPDFObjectHandle) :
  qpdf other <> qpdf pl ->
  Z.of_nat (length source) < Word.half ->
  forall (rest : list QPDFObjectHandle) i v,
  pages_of v other = source -> drop i source = rest ->
  NoDup (objgen <$> (pages_of v pl ++ stamp (qpdf pl) (next_of v pl) rest)) ->
  exists v',
    for_loop i (length rest)
      (Bindings.extend_step pl other (Z.of_nat (length source))) v
      = (inr tt, v') /\
    pages_of v' pl =
      pages_of v pl ++ stamp (qpdf pl) (next_of v pl) rest /\
    pages_of v' other = source.
Proof.
  intros Hne Hsmall.
  assert (Hhalf : Word.half < Word.modulus) by reflexivity.
  induction rest as [|h rest IH]; intros i v Hsrc Hdrop Hnd.
  - exists v. split; [reflexivity|]. split; [by rewrite app_nil_r|exact Hsrc].
  - assert (Hi : source !! i = Some h).
    { rewrite <- (Nat.add_0_r i), <- lookup_drop, Hdrop. reflexivity. }
    pose proof (lookup_lt_Some _ _ _ Hi) as Hlt.
    rewrite stamp_cons_placed in Hnd.
    assert (Hfresh : objgen (placed v pl h) ∉ objgen <$> pages_of v pl).
    { intros Hin. pose proof Hnd as Hmid.
      rewrite fmap_app, fmap_cons in Hmid.
      apply NoDup_middle_fresh in Hmid. apply Hmid.
      apply elem_of_app. by left. }
    simpl length. rewrite for_loop_step.
    unfold Bindings.extend_step at 1. unfold bind.
    rewrite !count_run. unfold page_count at 1. rewrite Hsrc, Z.eqb_refl.
    cbn [negb]. rewrite to_ssize_nonneg by lia.
    rewrite (getPage_hit _ _ _ h);
      [|lia|unfold page_count; rewrite Hsrc; lia|by rewrite Hsrc, Nat2Z.id].
    rewrite count_run, (insertPage_append _ _ _ _ eq_refl Hfresh).
    set (v1 := with_pages (booked v pl h) pl (pages_of v pl ++ [placed v pl h])).
    destruct (IH (S i) v1) as (v' & Hrun & Hp & Ho).
    + unfold v1. rewrite pages_of_frame by exact Hne. exact Hsrc.
    + replace (S i) with (i + 1)%nat by lia.
      rewrite <- drop_drop, Hdrop. reflexivity.
    + unfold v1. rewrite pages_of_with_pages, next_of_with_pages.
      by rewrite <- app_assoc.
    + exists v'. split; [exact Hrun|]. split; [|exact Ho].
      rewrite Hp. unfold v1.
      rewrite pages_of_with_pages, next_of_with_pages, stamp_cons_placed.
      by rewrite <- app_assoc.
Qed.

(** Extending from another document, none of whose pages the target holds
    already: every source page is appended, in order, the pages the target
    owns as fresh copies. *)
Lemma extend_other pl other w :
  qpdf other <> qpdf pl -> page_count w other < Word.half ->
  wf w pl ->
  NoDup (objgen <$> (pages_of w pl
                       ++ foreign_sources (qpdf pl) (pages_of w other))) ->
  exists w',
    Bindings.extend pl other w = (inr tt, w') /\
    pages_of w' pl =
      pages_of w pl ++ stamp (qpdf pl) (next_of w pl) (pages_of w other) /\
    pages_of w' other = pages_of w other.
Proof.
  intros Hne Hsmall [_ Halloc] Hnd. unfold Bindings.extend, bind.
  rewrite count_run.
  unfold page_count. rewrite Nat2Z.id.
  apply extend_loop; try done.
  by apply stamp_NoDup.
Qed.

End ExtendOther.

(** ** Worked examples *)

Section Examples.

(** Reversing [A, B, C] leaves fresh copies of [C, B, A]. *)
Example reverse_three_pages :
  body <$> Samples.pagesOf (Bindings.reverse Samples.pl1 Samples.w3)
    = [102; 101; 100]%nat.
Proof. vm_compute. reflexivity. Qed.

(** An extended slice with as many sources as positions replaces them one
    for one. *)
Example extended_slice_assignment :
  Samples.pagesOf
    (setPagesFromIterable Samples.pl1 (mkSlice None None (Some 2))
       [py_handle (Samples.pg 2 7); py_handle (Samples.pg 2 8)] Samples.w3)
    = [Samples.pg 2 7; Samples.pg 1 1; Samples.pg 2 8].
Proof. vm_compute. reflexivity. Qed.

(** A simple slice may grow the list. *)
Example simple_slice_grows :
  Samples.pagesOf
    (setPagesFromIterable Samples.pl1 (mkSlice (Some 1) (Some 2) None)
       [py_handle (Samples.pg 2 7); py_handle (Samples.pg 2 8)] Samples.w3)
    = [Samples.pg 1 0; Samples.pg 2 7; Samples.pg 2 8; Samples.pg 1 2].
Proof. vm_compute. reflexivity. Qed.

(** A failed insertion of a page of the bound document still consumes an
    object number. *)
Example rejected_insert_allocates :
  let r := insertPage Samples.pl1 5 (Samples.pg 1 1) Samples.w3 in
  fst r = inl index_error /\ Samples.pagesOf r = pages_of Samples.w3 Samples.pl1 /\
  next_of (snd r) Samples.pl1 = 4%nat.
Proof. vm_compute. repeat split. Qed.

(** A page of another document goes in once: the engine refuses the second
    insertion of the same object and the collection stays as it was. *)
Example foreign_page_twice_refused :
  let r1 := insertPage Samples.pl1 0 Samples.foreign Samples.w3 in
  let r2 := insertPage Samples.pl1 0 Samples.foreign (snd r1) in
  fst r1 = inr tt /\ fst r2 = inl qpdf_error /\
  Samples.pagesOf r2 = Samples.pagesOf r1.
Proof. vm_compute. repeat split. Qed.

(** Iterating visits the pages in order and then stops. *)
Example iteration_stops :
  fst (Bindings.next (mkPageList 3 1) Samples.w3) = inl stop_iteration /\
  fst (Bindings.next (Bindings.iter Samples.pl1) Samples.w3)
    = inr (Samples.pg 1 0, mkPageList 1 1).
Proof. vm_compute. split; reflexivity. Qed.

End Examples.

(** ** Deletion, replacement and their composition with insertion *)

Section DeleteReplace.

(** A [size_t] index that [getPage] receives as [ssize_t]: rejected between
    the count and [2^64 - count], resolved from the end above that. *)
Lemma getPage_size_reject pl w index :
  page_count w pl < Word.half ->
  page_count w pl <= index < Word.modulus - page_count w pl ->
  getPage pl (Word.to_ssize index) w = (inl index_error, w).
Proof.
  intros Hsmall Hidx.
  assert (Hhalf : Word.modulus = 2 * Word.half) by reflexivity.
  assert (Hn : 0 <= page_count w pl) by (unfold page_count; lia).
  destruct (Z.lt_ge_cases index Word.half).
  - rewrite to_ssize_nonneg by lia. apply getPage_miss. lia.
  - rewrite to_ssize_high by lia.
    rewrite getPage_negative by (unfold Word.is_ssize; lia).
    destruct (Z.ltb_spec (index - Word.modulus + page_count w pl) 0); [|lia].
    reflexivity.
Qed.

Lemma getPage_size_wrap pl w index :
  page_count w pl < Word.half ->
  Word.modulus - page_count w pl <= index < Word.modulus ->
  exists page,
    pages_of w pl !! Z.to_nat (index - Word.modulus + page_count w pl)
      = Some page /\
    getPage pl (Word.to_ssize index) w = (inr page, w).
Proof.
  intros Hsmall Hidx.
  assert (Hhalf : Word.modulus = 2 * Word.half) by reflexivity.
  destruct (lookup_lt_is_Some_2 (pages_of w pl)
              (Z.to_nat (index - Word.modulus + page_count w pl)))
    as [page Hpage]; [unfold page_count in *; lia|].
  exists page. split; [exact Hpage|].
  rewrite to_ssize_high by lia.
  rewrite getPage_negative by (unfold Word.is_ssize; lia).
  destruct (Z.ltb_spec (index - Word.modulus + page_count w pl) 0); [lia|].
  apply getPage_hit; [lia|lia|exact Hpage].
Qed.

(** X1: [deletePage] over the whole range of its [size_t] argument. Below
    the count it removes exactly the page at the index and touches neither
    the object counter nor the references held on other documents; from the
    count up to [2^64 - count] it raises the out-of-range error and leaves
    the world as it was; above that the index is read from the end of the
    list, as a negative index would be. *)
Theorem deletePage_removes (pl : PageList) (w : World) (index : Z) :
  NoDup (objgen <$> pages_of w pl) -> page_count w pl < Word.half ->
  (0 <= index < page_count w pl ->
     exists w', deletePage pl index w = (inr tt, w') /\
       pages_of w' pl = take (Z.to_nat index) (pages_of w pl) ++
                        drop (S (Z.to_nat index)) (pages_of w pl) /\
       next_of w' pl = next_of w pl /\ py_refs w' = py_refs w) /\
  (page_count w pl <= index < Word.modulus - page_count w pl ->
     deletePage pl index w = (inl index_error, w)) /\
  (Word.modulus - page_count w pl <= index < Word.modulus ->
     exists w', deletePage pl index w = (inr tt, w') /\
       pages_of w' pl =
         Engine.erase_at (Z.to_nat (index - Word.modulus + page_count w pl))
                         (pages_of w pl)).
Proof.
  intros Hnd Hsmall. repeat split.
  - intros Hidx. rewrite deletePage_run by (done || lia).
    eexists. split; [reflexivity|].
    rewrite pages_of_with_pages, next_of_with_pages. by repeat split.
  - intros Hidx. unfold deletePage, bind.
    by rewrite getPage_size_reject.
  - intros Hidx. unfold deletePage, bind.
    destruct (getPage_size_wrap pl w index Hsmall Hidx) as (page & Hpage & ->).
    unfold Engine.removePage. fold (pages_of w pl).
    rewrite (findPage_at _ _ _ Hnd Hpage).
    eexists. split; [reflexivity|]. by rewrite pages_of_set_doc.
Qed.

Lemma deletePage_removes_witness :
  NoDup (objgen <$> pages_of Samples.w3 Samples.pl1) /\
  0 <= 1 < page_count Samples.w3 Samples.pl1 /\
  exists w', deletePage Samples.pl1 1 Samples.w3 = (inr tt, w') /\
    pages_of w' Samples.pl1 = [Samples.pg 1 0; Samples.pg 1 2].
Proof.
  assert (Hnd : NoDup (objgen <$> pages_of Samples.w3 Samples.pl1))
    by (refine (bool_decide_unpack _ _); vm_compute; exact I).
  assert (Hidx : 0 <= 1 < page_count Samples.w3 Samples.pl1)
    by (split; [intros Hc; discriminate Hc|reflexivity]).
  split; [exact Hnd|]. split; [exact Hidx|].
  destruct (proj1 (deletePage_removes Samples.pl1 Samples.w3 1 Hnd eq_refl) Hidx)
    as (w' & Hrun & Hpages & _).
  exists w'. split; [exact Hrun|exact Hpages].
Defined.

(** X2: [setPage] at an index below the count replaces exactly the page at
    that index: the count is unchanged, the position holds the new handle
    (the fresh copy for a page of the bound document) and every other
    position keeps its page. *)
Theorem setPage_replaces_in_place (pl : PageList) (w : World) (index : Z)
  (h : QPDFObjectHandle) :
  wf w pl -> isPageObject h = true ->
  owning_qpdf h = qpdf pl \/ (objgen h ∉ objgen <$> pages_of w pl) ->
  0 <= index < page_count w pl -> page_count w pl + 1 < Word.half ->
  exists w', setPage pl index (py_handle h) w = (inr tt, w') /\
    pages_of w' pl = <[Z.to_nat index := placed w pl h]> (pages_of w pl) /\
    page_count w' pl = page_count w pl /\
    pages_of w' pl !! Z.to_nat index = Some (placed w pl h) /\
    (forall k, k <> Z.to_nat index ->
       pages_of w' pl !! k = pages_of w pl !! k).
Proof.
  intros Hwf Hpage Hfresh Hidx Hsmall.
  assert (Hlt : (Z.to_nat index < length (pages_of w pl))%nat)
    by (unfold page_count in Hidx; lia).
  assert (Hnew : objgen (placed w pl h) ∉ objgen <$> pages_of w pl).
  { destruct (decide (owning_qpdf h = qpdf pl)) as [Hown|Hforeign].
    - rewrite (placed_own _ _ _ Hown). by apply next_objid_fresh.
    - rewrite (placed_foreign _ _ _ Hforeign). by destruct Hfresh. }
  rewrite setPage_replaces by (done || apply Hwf).
  eexists. split; [reflexivity|].
  rewrite pages_of_with_pages, <- insert_take_drop by exact Hlt.
  split; [reflexivity|]. split.
  { unfold page_count. by rewrite pages_of_with_pages, length_insert. }
  split; [by apply list_lookup_insert_eq|].
  intros k Hk. by apply list_lookup_insert_ne.
Qed.

Lemma setPage_replaces_in_place_witness :
  exists w', setPage Samples.pl1 1 (py_handle Samples.foreign) Samples.w3
               = (inr tt, w') /\
    pages_of w' Samples.pl1
      = <[1%nat := placed Samples.w3 Samples.pl1 Samples.foreign]>
          (pages_of Samples.w3 Samples.pl1).
Proof.
  destruct (setPage_replaces_in_place Samples.pl1 Samples.w3 1 Samples.foreign)
    as (w' & Hrun & Hpages & _).
  - exact sample_w3_wf.
  - reflexivity.
  - right. refine (bool_decide_unpack _ _). vm_compute. exact I.
  - split; [intros Hc; discriminate Hc|reflexivity].
  - reflexivity.
  - exists w'. split; [exact Hrun|exact Hpages].
Defined.

Lemma erase_insert_at pos h (l : list QPDFObjectHandle) :
  (pos <= length l)%nat ->
  Engine.erase_at pos (Engine.insert_at pos h l) = l.
Proof.
  intros Hpos. unfold Engine.insert_at.
  rewrite <- (length_take_le l pos Hpos) at 1.
  rewrite erase_at_app. apply take_drop.
Qed.

(** X3: inserting a page and deleting at the same index gives back the
    page collection exactly as it was, but not the world: a page of the
    bound document has consumed an object number, and for a page of another
    document the reference taken on its owner is still held, since
    [deletePage] never releases one. *)
Theorem insert_then_delete_restores_pages (pl : PageList) (w : World)
  (index : Z) (page : QPDFObjectHandle) :
  NoDup (objgen <$> pages_of w pl) ->
  (objgen (placed w pl page) ∉ objgen <$> pages_of w pl) ->
  0 <= index <= page_count w pl -> page_count w pl + 1 < Word.half ->
  exists w', (insertPage pl index page ;; deletePage pl index) w = (inr tt, w') /\
    pages_of w' pl = pages_of w pl /\
    (owning_qpdf page = qpdf pl ->
       next_of w' pl = S (next_of w pl) /\ py_refs w' = py_refs w) /\
    (owning_qpdf page <> qpdf pl ->
       next_of w' pl = next_of w pl /\
       py_refs w' = owning_qpdf page :: py_refs w).
Proof.
  intros Hnd Hfresh Hidx Hsmall.
  assert (Hlen : (Z.to_nat index <= length (pages_of w pl))%nat)
    by (unfold page_count in Hidx; lia).
  unfold bind. rewrite insertPage_run by (done || lia).
  set (w1 := with_pages (booked w pl page) pl
               (Engine.insert_at (Z.to_nat index) (placed w pl page)
                                 (pages_of w pl))).
  assert (Hp1 : pages_of w1 pl = Engine.insert_at (Z.to_nat index)
                  (placed w pl page) (pages_of w pl))
    by apply pages_of_with_pages.
  assert (Hc1 : page_count w1 pl = page_count w pl + 1).
  { unfold page_count. rewrite Hp1, length_insert_at. lia. }
  rewrite deletePage_run; rewrite ?Hc1; [|lia|lia|].
  - eexists. split; [reflexivity|].
    rewrite pages_of_with_pages, next_of_with_pages, Hp1.
    rewrite erase_insert_at by exact Hlen.
    split; [reflexivity|].
    unfold w1. rewrite next_of_with_pages, next_of_booked.
    change (py_refs (with_pages (with_pages (booked w pl page) pl
              (Engine.insert_at (Z.to_nat index) (placed w pl page)
                 (pages_of w pl))) pl (pages_of w pl)))
      with (py_refs (booked w pl page)).
    rewrite py_refs_booked.
    split; intros Hown.
    + by rewrite bool_decide_eq_true_2.
    + by rewrite bool_decide_eq_false_2.
  - rewrite Hp1, insert_at_perm, fmap_cons. by apply NoDup_cons.
Qed.

Lemma insert_then_delete_restores_pages_witness :
  exists w',
    (insertPage Samples.pl1 2 Samples.foreign ;; deletePage Samples.pl1 2)
      Samples.w3 = (inr tt, w') /\
    pages_of w' Samples.pl1 = pages_of Samples.w3 Samples.pl1 /\
    py_refs w' = [2%nat].
Proof.
  destruct (insert_then_delete_restores_pages Samples.pl1 Samples.w3 2
              Samples.foreign) as (w' & Hrun & Hpages & _ & Hrefs).
  - refine (bool_decide_unpack _ _). vm_compute. exact I.
  - refine (bool_decide_unpack _ _). vm_compute. exact I.
  - split; intros Hc; discriminate Hc.
  - reflexivity.
  - exists w'. split; [exact Hrun|]. split; [exact Hpages|].
    apply Hrefs. intros Hc. discriminate Hc.
Defined.

End DeleteReplace.

(** ** Rules of the postcondition calculus *)

Section PostRules.

Context {I : World -> Prop}.

Lemma post_ret {A} (a : A) (Q : A -> Prop) : Q a -> post I (ret a) Q.
Proof.
  intros Hq w Hw. split; [exact Hw|]. intros b Hb. simpl in Hb. congruence.
Qed.

Lemma post_throw {A} e (Q : A -> Prop) : post I (throw e) Q.
Proof. intros w Hw. split; [exact Hw|]. intros b Hb. discriminate Hb. Qed.

Lemma post_bind {A B} (m : M A) (k : A -> M B) (Q : A -> Prop) (R : B -> Prop) :
  post I m Q -> (forall a, Q a -> post I (k a) R) -> post I (bind m k) R.
Proof.
  intros Hm Hk w Hw. unfold bind.
  destruct (Hm w Hw) as [Hw' Hq].
  destruct (m w) as [[e|a] w']; simpl in *.
  - split; [exact Hw'|]. intros b Hb. discriminate Hb.
  - apply (Hk a (Hq a eq_refl) w' Hw').
Qed.

Lemma post_weaken {A} (m : M A) (Q R : A -> Prop) :
  post I m Q -> (forall a, Q a -> R a) -> post I m R.
Proof.
  intros Hm Himp w Hw. destruct (Hm w Hw) as [Hw' Hq].
  split; [exact Hw'|]. intros a Ha. by apply Himp, Hq.
Qed.

Lemma post_for_loop first todo (body : nat -> M unit) :
  (forall i, post I (body i) (fun _ => True)) ->
  post I (for_loop first todo body) (fun _ => True).
Proof.
  intros Hbody. revert first.
  induction todo as [|todo IH]; intros first; simpl.
  - by apply post_ret.
  - eapply post_bind; [apply Hbody|]. intros _ _. apply IH.
Qed.

(** A computation that never changes the world keeps every invariant. *)
Lemma post_pure {A} (m : M A) (Q : A -> Prop) :
  (forall w, snd (m w) = w) ->
  (forall w a, I w -> fst (m w) = inr a -> Q a) ->
  post I m Q.
Proof.
  intros Hpure Hq w Hw. rewrite Hpure. split; [exact Hw|].
  intros a Ha. by apply (Hq w).
Qed.

Lemma post_count pl : post I (count pl) (fun _ => True).
Proof. apply post_pure; [reflexivity|done]. Qed.

Lemma post_getPage pl i : post I (getPage pl i) (fun _ => True).
Proof. apply post_pure; [apply getPage_pure|done]. Qed.

Lemma post_assert obj :
  post I (assert_pyobject_is_page obj) (fun _ => is_page_object obj = true).
Proof.
  apply post_pure.
  - intros w. by rewrite assert_pyobject_is_page_run.
  - intros w a _. rewrite assert_pyobject_is_page_run. simpl.
    destruct (is_page_object obj); [done|discriminate].
Qed.

Lemma post_unpack_iterable other :
  post I (unpack_iterable other)
       (fun results => results = other /\
                       Forall (fun o => is_page_object o = true) other).
Proof.
  apply post_pure; [apply unpack_iterable_pure|].
  intros w a _. destruct (pages_or_not other) as [Hall|Hex].
  - rewrite unpack_iterable_ok by exact Hall. simpl. intros Ha.
    split; [congruence|exact Hall].
  - rewrite unpack_iterable_bad by exact Hex. discriminate.
Qed.

End PostRules.

(** ** Reads return pages of the collection *)

Section ReadsPost.

Lemma getPage_member pl i w page :
  fst (getPage pl i w) = inr page -> page ∈ pages_of w pl.
Proof.
  unfold getPage, bind, Engine.getAllPages, ret, throw. cbv zeta.
  fold (pages_of w pl).
  repeat (match goal with
          | |- context [if ?b then _ else _] => destruct b
          end; try discriminate).
  - destruct (pages_of w pl !! _) as [x|] eqn:Hx; [|discriminate].
    simpl. intros Heq. injection Heq as <-. by eapply list_elem_of_lookup_2.
  - destruct (pages_of w pl !! _) as [x|] eqn:Hx; [|discriminate].
    simpl. intros Heq. injection Heq as <-. by eapply list_elem_of_lookup_2.
Qed.

Context {I : World -> Prop} (pl : PageList) (P : QPDFObjectHandle -> Prop).
Hypothesis Hpages : forall w, I w -> Forall P (pages_of w pl).

Lemma post_getPage_member i : post I (getPage pl i) P.
Proof.
  apply post_pure; [apply getPage_pure|].
  intros w page Hw Hrun. specialize (Hpages w Hw).
  rewrite Forall_forall in Hpages. by eapply Hpages, getPage_member.
Qed.

Lemma post_getPages_loop todo :
  forall start step, post I (getPages_loop pl todo start step) (Forall P).
Proof.
  induction todo as [|todo IH]; intros start step; simpl.
  - apply post_ret. constructor.
  - eapply post_bind; [apply post_getPage_member|]. intros oh Hoh.
    eapply post_bind; [apply IH|]. intros rest Hrest.
    apply post_ret. by constructor.
Qed.

Lemma post_getPages slice : post I (getPages pl slice) (Forall P).
Proof.
  unfold getPages. eapply post_bind; [apply post_count|]. intros n _.
  destruct (Slice.compute slice n) as [[[[start stop] step] slicelength]|];
    [apply post_getPages_loop|apply post_throw].
Qed.

End ReadsPost.

(** [getPages] never changes the world. *)
Lemma getPages_pure pl slice w : snd (getPages pl slice w) = w.
Proof.
  symmetry.
  apply (post_getPages (I := fun w' => w = w') pl (fun _ => True)); [|done].
  intros w' _. apply Forall_forall. done.
Qed.

(** ** The invariant under operations on pages of the bound document *)

Section Invariant.

Variable pl : PageList.

Lemma erase_at_delete pos (l : list QPDFObjectHandle) :
  Engine.erase_at pos l = delete pos l.
Proof. unfold Engine.erase_at. by rewrite delete_take_drop. Qed.

(** What [insertPage] can leave behind: the bookkeeping alone, or the
    bookkeeping and the page at some position. *)
Lemma insertPage_outcome index page w :
  snd (insertPage pl index page w) = booked w pl page \/
  exists pos,
    snd (insertPage pl index page w) =
      with_pages (booked w pl page) pl
        (Engine.insert_at pos (placed w pl page) (pages_of w pl)).
Proof.
  rewrite insertPage_unfold. destruct (negb (index =? page_count w pl)).
  - pose proof (getPage_pure pl (Word.to_ssize index) (booked w pl page)) as Hp.
    destruct (getPage pl (Word.to_ssize index) (booked w pl page))
      as [[e|refpage] w1]; simpl in Hp; subst w1; [by left|].
    unfold Engine.addPageAt. fold (pages_of (booked w pl page) pl).
    destruct (Engine.findPage _ refpage) as [pos|]; [|by left].
    destruct (Engine.findPage _ (placed w pl page)); [by left|].
    right. exists pos. simpl. unfold with_pages.
    fold (next_of (booked w pl page) pl). by rewrite pages_of_booked.
  - unfold Engine.addPage. fold (pages_of (booked w pl page) pl).
    destruct (Engine.findPage _ (placed w pl page)); [by left|].
    right. exists (length (pages_of w pl)). simpl.
    unfold with_pages.
    fold (next_of (booked w pl page) pl). by rewrite pages_of_booked.
Qed.

Lemma deletePage_outcome index w :
  snd (deletePage pl index w) = w \/
  exists pos,
    snd (deletePage pl index w) = with_pages w pl (delete pos (pages_of w pl)).
Proof.
  unfold deletePage, bind.
  pose proof (getPage_pure pl (Word.to_ssize index) w) as Hp.
  destruct (getPage pl (Word.to_ssize index) w) as [[e|page] w1];
    simpl in Hp; subst w1; [by left|].
  unfold Engine.removePage. fold (pages_of w pl).
  destruct (Engine.findPage _ page) as [pos|]; [|by left].
  right. exists pos. simpl. by rewrite erase_at_delete.
Qed.

Lemma own_invariant_booked w page :
  own_invariant pl w -> owning_qpdf page = qpdf pl ->
  own_invariant pl (booked w pl page).
Proof.
  intros [[Hnd Halloc] Hown] Hpage. split; [split|].
  - by rewrite pages_of_booked.
  - rewrite pages_of_booked, next_of_booked.
    eapply Forall_impl; [exact Halloc|]. intros h Hh Hg. specialize (Hh Hg).
    case_bool_decide; lia.
  - unfold own_pages. by rewrite pages_of_booked.
Qed.

Lemma own_invariant_inserted w page pos :
  own_invariant pl w -> owning_qpdf page = qpdf pl ->
  isPageObject page = true ->
  own_invariant pl
    (with_pages (booked w pl page) pl
       (Engine.insert_at pos (placed w pl page) (pages_of w pl))).
Proof.
  intros [Hwf Hown] Hpage Hispage. split.
  - by apply wf_insert_own.
  - unfold own_pages. rewrite pages_of_with_pages, insert_at_perm.
    apply Forall_cons. split; [|exact Hown].
    by rewrite (placed_own _ _ _ Hpage).
Qed.

Lemma own_invariant_deleted w pos :
  own_invariant pl w ->
  own_invariant pl (with_pages w pl (delete pos (pages_of w pl))).
Proof.
  intros [[Hnd Halloc] Hown]. split; [split|].
  - rewrite pages_of_with_pages.
    eapply sublist_NoDup; [exact Hnd|].
    apply fmap_sublist, sublist_delete.
  - rewrite pages_of_with_pages, next_of_with_pages. by apply Forall_delete.
  - unfold own_pages. rewrite pages_of_with_pages. by apply Forall_delete.
Qed.

Lemma inv_insertPage index page :
  owning_qpdf page = qpdf pl -> isPageObject page = true ->
  post (own_invariant pl) (insertPage pl index page) (fun _ => True).
Proof.
  intros Hpage Hispage w Hw. split; [|done].
  destruct (insertPage_outcome index page w) as [->|[pos ->]].
  - by apply own_invariant_booked.
  - by apply own_invariant_inserted.
Qed.

Lemma inv_insertPage_obj index obj :
  own_object pl obj ->
  post (own_invariant pl) (insertPage_obj pl index obj) (fun _ => True).
Proof.
  intros Hobj. unfold insertPage_obj.
  destruct (cast_handle obj) as [page|] eqn:Hcast; [|apply post_throw].
  destruct (isPageObject page) eqn:Hispage; simpl; [|apply post_throw].
  apply inv_insertPage; [by apply Hobj|exact Hispage].
Qed.

Lemma inv_deletePage index :
  post (own_invariant pl) (deletePage pl index) (fun _ => True).
Proof.
  intros w Hw. split; [|done].
  destruct (deletePage_outcome index w) as [->|[pos ->]]; [exact Hw|].
  by apply own_invariant_deleted.
Qed.

Lemma inv_setPage index obj :
  own_object pl obj ->
  post (own_invariant pl) (setPage pl index obj) (fun _ => True).
Proof.
  intros Hobj. unfold setPage.
  eapply post_bind; [by apply inv_insertPage_obj|].
  intros _ _. eapply post_bind; [apply post_count|]. intros n _.
  destruct (negb (index =? n)); [apply inv_deletePage|by apply post_ret].
Qed.

Lemma own_object_list_item (results : list py_object) i :
  Forall (own_object pl) results -> own_object pl (list_item results i).
Proof.
  intros Hall. unfold list_item.
  destruct (results !! i) as [o|] eqn:Ho; simpl.
  - rewrite Forall_forall in Hall. by eapply Hall, list_elem_of_lookup_2.
  - intros h Hc. discriminate Hc.
Qed.

Lemma inv_setPagesFromIterable slice other :
  Forall (own_object pl) other ->
  post (own_invariant pl) (setPagesFromIterable pl slice other)
       (fun _ => True).
Proof.
  intros Hall. unfold setPagesFromIterable.
  eapply post_bind; [apply post_count|]. intros n _.
  destruct (Slice.compute slice n) as [[[[start stop] step] slicelength]|];
    [|apply post_throw].
  eapply post_bind; [apply post_unpack_iterable|]. intros results [-> _].
  destruct (negb (step =? 1)).
  - destruct (negb (Z.of_nat (length other) =? slicelength));
      [apply post_throw|].
    apply post_for_loop. intros i.
    by apply inv_setPage, own_object_list_item.
  - eapply post_bind.
    + apply post_for_loop. intros i.
      by apply inv_insertPage_obj, own_object_list_item.
    + intros _ _. apply post_for_loop. intros i. apply inv_deletePage.
Qed.

Lemma own_invariant_pages w :
  own_invariant pl w ->
  Forall (fun h => owning_qpdf h = qpdf pl /\ isPageObject h = true)
         (pages_of w pl).
Proof. by intros [_ Hown]. Qed.

Lemma inv_reverse :
  post (own_invariant pl) (Bindings.reverse pl) (fun _ => True).
Proof.
  unfold Bindings.reverse. eapply post_bind; [apply post_count|]. intros n _.
  eapply post_bind.
  - apply (post_getPages pl _ own_invariant_pages).
  - intros reversed_pages Hrev. apply inv_setPagesFromIterable.
    apply Forall_fmap. eapply Forall_impl; [exact Hrev|].
    intros h [Hown _] h' Hc. simpl in Hc. by injection Hc as <-.
Qed.

Lemma inv_append obj :
  own_object pl obj ->
  post (own_invariant pl) (Bindings.append pl obj) (fun _ => True).
Proof.
  intros Hobj. unfold Bindings.append.
  eapply post_bind; [apply post_count|]. intros n _.
  by apply inv_insertPage_obj.
Qed.

Lemma inv_extend other :
  qpdf other = qpdf pl ->
  post (own_invariant pl) (Bindings.extend pl other) (fun _ => True).
Proof.
  intros Halias. unfold Bindings.extend.
  eapply post_bind; [apply post_count|].
  intros other_count _. apply post_for_loop. intros i.
  unfold Bindings.extend_step.
  eapply post_bind; [apply post_count|]. intros c _.
  destruct (negb (other_count =? c)); [apply post_throw|].
  eapply post_bind.
  - apply (post_getPage_member other
             (fun h => owning_qpdf h = qpdf pl /\ isPageObject h = true)).
    intros w Hw. rewrite (pages_of_alias _ _ _ Halias).
    by apply own_invariant_pages.
  - intros page [Hown Hispage].
    eapply post_bind; [apply post_count|]. intros n _.
    by apply inv_insertPage.
Qed.

Lemma inv_extend_iterable iterable :
  Forall (own_object pl) iterable ->
  post (own_invariant pl) (Bindings.extend_iterable pl iterable)
       (fun _ => True).
Proof.
  induction 1 as [|item rest Hitem _ IH]; simpl; [by apply post_ret|].
  eapply post_bind; [apply post_assert|]. intros _ _.
  eapply post_bind; [apply post_count|]. intros n _.
  eapply post_bind; [by apply inv_insertPage_obj|]. intros _ _. exact IH.
Qed.

End Invariant.

(** X5: on a list that holds distinct, allocated page objects of its own
    document, every operation whose page arguments belong to that document
    leaves such a list behind, for every index and every slice, whether the
    call returns or raises: no sequence of insertions, deletions,
    replacements, slice assignments, reversals and self-extensions ever
    puts one indirect object at two positions. *)
Theorem own_page_operations_keep_invariant (pl : PageList) (w : World) :
  own_invariant pl w ->
  (forall index page,
     owning_qpdf page = qpdf pl -> isPageObject page = true ->
     own_invariant pl (snd (insertPage pl index page w))) /\
  (forall index, own_invariant pl (snd (deletePage pl index w))) /\
  (forall index obj, own_object pl obj ->
     own_invariant pl (snd (setPage pl index obj w))) /\
  (forall slice other, Forall (own_object pl) other ->
     own_invariant pl (snd (setPagesFromIterable pl slice other w))) /\
  own_invariant pl (snd (Bindings.reverse pl w)) /\
  (forall obj, own_object pl obj ->
     own_invariant pl (snd (Bindings.append pl obj w))) /\
  (forall other, qpdf other = qpdf pl ->
     own_invariant pl (snd (Bindings.extend pl other w))) /\
  (forall iterable, Forall (own_object pl) iterable ->
     own_invariant pl (snd (Bindings.extend_iterable pl iterable w))).
Proof.
  intros Hw. repeat split; intros.
  all: first
    [ by apply (inv_insertPage pl index page)
    | by apply (inv_deletePage pl index)
    | by apply (inv_setPage pl index obj)
    | by apply (inv_setPagesFromIterable pl slice other)
    | by apply (inv_reverse pl)
    | by apply (inv_append pl obj)
    | by apply (inv_extend pl other)
    | by apply (inv_extend_iterable pl iterable) ].
Qed.

Lemma sample_w3_own_invariant : own_invariant Samples.pl1 Samples.w3.
Proof.
  split; [exact sample_w3_wf|].
  refine (bool_decide_unpack _ _). vm_compute. exact I.
Qed.

Lemma own_page_operations_keep_invariant_witness :
  own_invariant Samples.pl1 Samples.w3 /\
  own_invariant Samples.pl1
    (snd (Bindings.extend Samples.pl1 Samples.pl1 Samples.w3)).
Proof.
  split; [exact sample_w3_own_invariant|].
  apply (own_page_operations_keep_invariant Samples.pl1 Samples.w3
           sample_w3_own_invariant).
  reflexivity.
Defined.

(** ** Appending *)

Section Appending.

Lemma insertPage_obj_at_count pl w h :
  isPageObject h = true ->
  objgen (placed w pl h) ∉ objgen <$> pages_of w pl ->
  insertPage_obj pl (page_count w pl) (py_handle h) w =
    (inr tt, with_pages (booked w pl h) pl (pages_of w pl ++ [placed w pl h])).
Proof.
  intros Hpage Hfresh. rewrite insertPage_obj_page by exact Hpage.
  by apply insertPage_append.
Qed.



(** The loop of the generic [extend] over a run of page objects that the
    engine accepts. *)
Lemma extend_iterable_pages pl (good : list QPDFObjectHandle) :
  Forall (fun h => isPageObject h = true) good ->
  forall w,
  NoDup (objgen <$> (pages_of w pl ++ stamp (qpdf pl) (next_of w pl) good)) ->
  exists w1,
    pages_of w1 pl =
      pages_of w pl ++ stamp (qpdf pl) (next_of w pl) good /\
    next_of w1 pl = (next_of w pl + own_count (qpdf pl) good)%nat /\
    forall rest : list py_object,
      Bindings.extend_iterable pl ((py_handle <$> good) ++ rest) w =
        Bindings.extend_iterable pl rest w1.
Proof.
  induction 1 as [|h good Hh _ IH]; intros w Hnd.
  - exists w. split; [by rewrite app_nil_r|]. split; [|reflexivity].
    unfold own_count. simpl. lia.
  - set (w0 := with_pages (booked w pl h) pl (pages_of w pl ++ [placed w pl h])).
    rewrite stamp_cons_placed in Hnd.
    assert (Hfresh : objgen (placed w pl h) ∉ objgen <$> pages_of w pl).
    { intros Hin. pose proof Hnd as Hmid.
      rewrite fmap_app, fmap_cons in Hmid.
      apply NoDup_middle_fresh in Hmid. apply Hmid.
      apply elem_of_app. by left. }
    destruct (IH w0) as (w1 & Hp & Hn & Hrun).
    { unfold w0. rewrite pages_of_with_pages, next_of_with_pages.
      by rewrite <- app_assoc. }
    exists w1. split; [|split].
    + rewrite Hp. unfold w0.
      rewrite pages_of_with_pages, next_of_with_pages, stamp_cons_placed.
      by rewrite <- app_assoc.
    + rewrite Hn. unfold w0.
      rewrite next_of_with_pages, next_of_booked, own_count_cons.
      case_bool_decide; lia.
    + intros rest. rewrite <- (Hrun rest). rewrite fmap_cons.
      cbn [app Bindings.extend_iterable]. unfold bind at 1.
      rewrite assert_pyobject_is_page_run.
      assert (Hobj : is_page_object (py_handle h) = true) by exact Hh.
      rewrite Hobj. unfold bind at 1. rewrite count_run. unfold bind at 1.
      by rewrite insertPage_obj_at_count by done.
Qed.

(** X7: given a sequence of objects fixed before the call, whose pages the
    engine accepts (distinct objects none of which the list holds already),
    the generic [extend] appends the pages in order, one call of
    [insertPage] each; it checks an item only when its turn comes, so at the
    first item that is not a page it raises the type error with every page
    before that item already appended (unlike slice assignment, which
    checks everything first). *)
Theorem extend_iterable_appends (pl : PageList) (w : World)
  (good : list QPDFObjectHandle) :
  wf w pl ->
  Forall (fun h => isPageObject h = true) good ->
  NoDup (objgen <$> (pages_of w pl ++ foreign_sources (qpdf pl) good)) ->
  exists w1,
    pages_of w1 pl = pages_of w pl ++ stamp (qpdf pl) (next_of w pl) good /\
    page_count w1 pl = page_count w pl + Z.of_nat (length good) /\
    Bindings.extend_iterable pl (py_handle <$> good) w = (inr tt, w1) /\
    (forall bad rest, is_page_object bad = false ->
       Bindings.extend_iterable pl ((py_handle <$> good) ++ bad :: rest) w
         = (inl type_error, w1)).
Proof.
  intros [_ Halloc] Hgood Hnd.
  destruct (extend_iterable_pages pl good Hgood w) as (w1 & Hp & _ & Hrun).
  { by apply stamp_NoDup. }
  exists w1. split; [exact Hp|]. split.
  { unfold page_count. rewrite Hp, length_app, stamp_length. lia. }
  split.
  - rewrite <- (app_nil_r (py_handle <$> good)), Hrun. reflexivity.
  - intros bad rest Hbad. rewrite Hrun. simpl. unfold bind.
    by rewrite assert_pyobject_is_page_run, Hbad.
Qed.

Lemma extend_iterable_appends_witness :
  wf Samples.w3 Samples.pl1 /\
  exists w1,
    pages_of w1 Samples.pl1
      = [Samples.pg 1 0; Samples.pg 1 1; Samples.pg 1 2; Samples.foreign] /\
    Bindings.extend_iterable Samples.pl1
      [py_handle Samples.foreign; py_other; py_handle Samples.foreign]
      Samples.w3 = (inl type_error, w1).
Proof.
  split; [exact sample_w3_wf|].
  destruct (extend_iterable_appends Samples.pl1 Samples.w3 [Samples.foreign])
    as (w1 & Hp & _ & _ & Hbad).
  - exact sample_w3_wf.
  - apply Forall_cons. split; [reflexivity|constructor].
  - refine (bool_decide_unpack _ _). vm_compute. exact I.
  - exists w1. split; [exact Hp|].
    apply (Hbad py_other [py_handle Samples.foreign]). reflexivity.
Defined.

End Appending.

(** ** Extending from another document, iterating, reading slices *)

Section MoreBindings.

(** X8: [extend] from a list bound to another document, none of whose
    pages the target holds already: the source's count cannot change under
    it, every source page is appended in order (a page the target itself
    owns as a fresh copy), and the source's own page collection is the same
    afterwards. *)
Theorem extend_from_other_document (pl other : PageList) (w : World) :
  qpdf other <> qpdf pl -> page_count w other < Word.half ->
  wf w pl ->
  NoDup (objgen <$> (pages_of w pl
                       ++ foreign_sources (qpdf pl) (pages_of w other))) ->
  exists w',
    Bindings.extend pl other w = (inr tt, w') /\
    pages_of w' pl =
      pages_of w pl ++ stamp (qpdf pl) (next_of w pl) (pages_of w other) /\
    page_count w' pl = page_count w pl + page_count w other /\
    pages_of w' other = pages_of w other.
Proof.
  intros Hne Hsmall Hwf Hnd.
  destruct (extend_other pl other w Hne Hsmall Hwf Hnd)
    as (w' & Hrun & Hp & Ho).
  exists w'. split; [exact Hrun|]. split; [exact Hp|]. split; [|exact Ho].
  unfold page_count. rewrite Hp, length_app, stamp_length. lia.
Qed.

Lemma extend_from_other_document_witness :
  let w := mkWorld (<[2%nat := mkQPDF [Samples.pg 2 0; Samples.pg 2 1] 2]>
                      (heap Samples.w3)) [] in
  let other := mkPageList 0 2 in
  wf w Samples.pl1 /\
  exists w',
    Bindings.extend Samples.pl1 other w = (inr tt, w') /\
    pages_of w' Samples.pl1 =
      [Samples.pg 1 0; Samples.pg 1 1; Samples.pg 1 2;
       Samples.pg 2 0; Samples.pg 2 1].
Proof.
  intros w other.
  assert (Hwf : wf w Samples.pl1).
  { split; refine (bool_decide_unpack _ _); vm_compute; exact I. }
  split; [exact Hwf|].
  destruct (extend_from_other_document Samples.pl1 other w)
    as (w' & Hrun & Hp & _).
  - intros Hc. discriminate Hc.
  - reflexivity.
  - exact Hwf.
  - refine (bool_decide_unpack _ _). vm_compute. exact I.
  - exists w'. split; [exact Hrun|exact Hp].
Defined.

(** X9: the iteration protocol. With the cursor at [i] below the count,
    [__next__] returns the page at position [i] and the cursor [i + 1]; with
    the cursor at or past the count it raises [stop_iteration]; in neither
    case is the document changed, and [__iter__] starts a cursor at [0] on
    the same document whatever the cursor of the list it is called on. *)
Theorem next_walks_the_list (pl : PageList) (w : World) (i : nat) :
  page_count w pl < Word.half ->
  let cursor := mkPageList (Z.of_nat i) (qpdf pl) in
  (forall page, pages_of w pl !! i = Some page ->
     Bindings.next cursor w =
       (inr (page, mkPageList (Z.of_nat (S i)) (qpdf pl)), w)) /\
  ((length (pages_of w pl) <= i)%nat ->
     Bindings.next cursor w = (inl stop_iteration, w)) /\
  Bindings.iter cursor = mkPageList 0 (qpdf pl).
Proof.
  intros Hsmall. cbv zeta.
  assert (Hhalf : Word.half < Word.modulus) by reflexivity.
  assert (Hcount : page_count w (mkPageList (Z.of_nat i) (qpdf pl))
                   = page_count w pl) by reflexivity.
  repeat split.
  - intros page Hpage. pose proof (lookup_lt_Some _ _ _ Hpage) as Hlt.
    unfold Bindings.next, bind. rewrite count_run, Hcount. cbn [iterpos qpdf].
    assert (Ht : (Z.of_nat i <? page_count w pl) = true)
      by (unfold page_count; lia).
    rewrite Ht, to_ssize_nonneg by (unfold page_count in *; lia).
    rewrite (getPage_hit _ _ _ page);
      [|lia|rewrite Hcount; lia|by rewrite Nat2Z.id].
    unfold ret. rewrite to_size_small by (unfold page_count in *; lia).
    replace (Z.of_nat i + 1) with (Z.of_nat (S i)) by lia. reflexivity.
  - intros Hge. unfold Bindings.next, bind. rewrite count_run, Hcount.
    cbn [iterpos qpdf].
    assert (Ht : (Z.of_nat i <? page_count w pl) = false)
      by (unfold page_count; lia).
    by rewrite Ht.
Qed.

Lemma next_walks_the_list_witness :
  page_count Samples.w3 Samples.pl1 < Word.half /\
  Bindings.next (mkPageList 2 1) Samples.w3 =
    (inr (Samples.pg 1 2, mkPageList 3 1), Samples.w3) /\
  Bindings.next (mkPageList 3 1) Samples.w3 = (inl stop_iteration, Samples.w3).
Proof.
  assert (Hs : page_count Samples.w3 Samples.pl1 < Word.half) by reflexivity.
  split; [exact Hs|]. split.
  - apply (proj1 (next_walks_the_list Samples.pl1 Samples.w3 2 Hs)).
    reflexivity.
  - apply (proj1 (proj2 (next_walks_the_list Samples.pl1 Samples.w3 3 Hs))).
    apply Nat.leb_le. reflexivity.
Defined.

(** Reading forwards with step [1]. *)
Lemma getPages_loop_forwards pl w :
  page_count w pl < Word.half ->
  forall k s, (s + k <= length (pages_of w pl))%nat ->
  getPages_loop pl k (Z.of_nat s) 1 w
    = (inr (take k (drop s (pages_of w pl))), w).
Proof.
  intros Hsmall. unfold page_count in Hsmall.
  assert (Hhalf : Word.half < Word.modulus) by reflexivity.
  induction k as [|k IH]; intros s Hk; [reflexivity|].
  cbn [getPages_loop]. unfold bind.
  rewrite to_ssize_nonneg by lia.
  destruct (lookup_lt_is_Some_2 (pages_of w pl) s) as [page Hpage]; [lia|].
  rewrite (getPage_hit _ _ _ page);
    [|lia|unfold page_count; lia|by rewrite Nat2Z.id].
  rewrite to_size_small by lia.
  replace (Z.of_nat s + 1) with (Z.of_nat (S s)) by lia.
  rewrite IH by lia.
  by rewrite (drop_S _ _ _ Hpage).
Qed.

Lemma compute_whole n :
  0 <= n < Word.half ->
  Slice.compute (mkSlice None None None) n = Some (0, n, 1, n).
Proof.
  intros Hn. unfold Slice.compute, Slice.unpack.
  cbv beta iota zeta delta [slice_step slice_start slice_stop].
  change (1 =? 0) with false. change (1 <? 0) with false. cbv iota.
  assert (Hstart : Slice.adjust_bound n 1 0 = 0).
  { unfold Slice.adjust_bound. change (0 <? 0) with false.
    change (1 <? 0) with false. cbv iota.
    destruct (Z.geb_spec 0 n); lia. }
  assert (Hstop : Slice.adjust_bound n 1 Slice.ssize_max = n).
  { unfold Slice.adjust_bound. change (1 <? 0) with false.
    change (Slice.ssize_max <? 0) with false. cbv iota.
    destruct (Z.geb_spec Slice.ssize_max n) as [_|Hc]; [reflexivity|].
    unfold Slice.ssize_max in Hc. lia. }
  rewrite Hstart, Hstop.
  assert (Hlen : Slice.adjusted_length 0 n 1 = n).
  { unfold Slice.adjusted_length. change (1 <? 0) with false. cbv iota.
    rewrite Z.div_1_r. destruct (Z.ltb_spec 0 n); lia. }
  rewrite Hlen, (to_size_small n); [reflexivity|].
  unfold Word.half, Word.modulus in *. lia.
Qed.

(** X10: [getPages] on a slice that resolves to step [1] returns the
    [slicelength] pages that start at [start], in order, and leaves the
    world as it was; in particular the whole-list slice returns every page,
    and the whole-list slice with step [-1] returns them last to first. *)
Theorem getPages_simple_slice (pl : PageList) (w : World) (slice : py_slice)
  (start stop slicelength : Z) :
  page_count w pl < Word.half ->
  (Slice.compute slice (page_count w pl) = Some (start, stop, 1, slicelength) ->
     getPages pl slice w =
       (inr (take (Z.to_nat slicelength)
               (drop (Z.to_nat start) (pages_of w pl))), w)) /\
  getPages pl (mkSlice None None None) w = (inr (pages_of w pl), w) /\
  getPages pl (mkSlice None None (Some (-1))) w
    = (inr (reverse (pages_of w pl)), w).
Proof.
  intros Hsmall.
  assert (Hn : 0 <= page_count w pl < Word.half)
    by (unfold page_count in *; lia).
  assert (Hgen : forall sl a b c,
            Slice.compute sl (page_count w pl) = Some (a, b, 1, c) ->
            getPages pl sl w =
              (inr (take (Z.to_nat c) (drop (Z.to_nat a) (pages_of w pl))), w)).
  { intros sl a b c Hcompute.
    destruct (compute_simple_bounds _ _ _ _ _ Hn Hcompute) as (Ha & Hc & Hac).
    unfold getPages, bind. rewrite count_run, Hcompute.
    rewrite <- (Z2Nat.id a) at 1 by lia.
    apply getPages_loop_forwards; [exact Hsmall|].
    unfold page_count in *. lia. }
  split; [apply Hgen|]. split.
  - rewrite (Hgen _ _ _ _ (compute_whole _ Hn)).
    change (Z.to_nat 0) with 0%nat. rewrite drop_0.
    by rewrite take_ge by (unfold page_count; lia).
  - by apply getPages_reversed.
Qed.

Lemma getPages_simple_slice_witness :
  page_count Samples.w3 Samples.pl1 < Word.half /\
  getPages Samples.pl1 (mkSlice (Some 1) None None) Samples.w3
    = (inr [Samples.pg 1 1; Samples.pg 1 2], Samples.w3).
Proof.
  assert (Hs : page_count Samples.w3 Samples.pl1 < Word.half) by reflexivity.
  split; [exact Hs|].
  apply (proj1 (getPages_simple_slice Samples.pl1 Samples.w3
                  (mkSlice (Some 1) None None) 1 3 2 Hs)).
  reflexivity.
Defined.

End MoreBindings.

(** ** Slices with any step *)

Section AnyStep.

Lemma adjust_bound_range n step v :
  0 <= n ->
  (0 < step -> 0 <= Slice.adjust_bound n step v <= n) /\
  (step < 0 -> -1 <= Slice.adjust_bound n step v <= n - 1).
Proof.
  intros Hn. unfold Slice.adjust_bound.
  destruct (Z.ltb_spec v 0); [destruct (Z.ltb_spec (v + n) 0)|
                             destruct (Z.geb_spec v n)];
    destruct (Z.ltb_spec step 0); lia.
Qed.

(** Every position a resolved slice visits lies inside the collection. *)
Lemma compute_positions slice n start stop step slicelength :
  0 <= n < Word.half ->
  Slice.compute slice n = Some (start, stop, step, slicelength) ->
  exists st sp,
    start = Word.to_size st /\ step = Word.to_size sp /\
    sp <> 0 /\ - Word.half < sp < Word.half /\
    0 <= slicelength <= n /\
    forall j, 0 <= j < slicelength -> 0 <= st + j * sp < n.
Proof.
  intros Hn. unfold Slice.compute, Slice.unpack.
  set (sp := match slice_step slice with
             | Some v => Z.max (- Slice.ssize_max) (Slice.clamp v)
             | None => 1
             end).
  assert (Hsp : - Slice.ssize_max <= sp <= Slice.ssize_max).
  { unfold sp. destruct (slice_step slice).
    - unfold Slice.clamp, Slice.ssize_max, Slice.ssize_min, Word.half. lia.
    - unfold Slice.ssize_max, Word.half. lia. }
  destruct (Z.eqb_spec sp 0) as [|Hnz]; [discriminate|].
  set (v1 := match slice_start slice with
             | Some v => Slice.clamp v
             | None => if sp <? 0 then Slice.ssize_max else 0
             end).
  set (v2 := match slice_stop slice with
             | Some v => Slice.clamp v
             | None => if sp <? 0 then Slice.ssize_min else Slice.ssize_max
             end).
  set (a := Slice.adjust_bound n sp v1).
  set (b := Slice.adjust_bound n sp v2).
  intros Heq. injection Heq as Hstart Hstop Hstep Hlen.
  destruct (adjust_bound_range n sp v1 ltac:(lia)) as [Hapos Haneg].
  destruct (adjust_bound_range n sp v2 ltac:(lia)) as [Hbpos Hbneg].
  fold a in Hapos, Haneg. fold b in Hbpos, Hbneg.
  assert (Hhalf : Word.half < Word.modulus) by reflexivity.
  assert (Hlenfacts :
            0 <= Slice.adjusted_length a b sp <= n /\
            forall j, 0 <= j < Slice.adjusted_length a b sp ->
                      0 <= a + j * sp < n).
  { unfold Slice.adjusted_length.
    destruct (Z.ltb_spec sp 0) as [Hneg|Hpos].
    - specialize (Haneg Hneg). specialize (Hbneg Hneg).
      destruct (Z.ltb_spec b a) as [Hba|Hba]; [|split; [lia|intros j Hj; lia]].
      assert (Hq : 0 <= (a - b - 1) / - sp) by (apply Z.div_pos; lia).
      pose proof (Z.mul_div_le (a - b - 1) (- sp) ltac:(lia)) as Hmul.
      split; [nia|]. intros j Hj. nia.
    - assert (Hpos' : 0 < sp) by lia.
      specialize (Hapos Hpos'). specialize (Hbpos Hpos').
      destruct (Z.ltb_spec a b) as [Hab|Hab]; [|split; [lia|intros j Hj; lia]].
      assert (Hq : 0 <= (b - a - 1) / sp) by (apply Z.div_pos; lia).
      pose proof (Z.mul_div_le (b - a - 1) sp Hpos') as Hmul.
      split; [nia|]. intros j Hj. nia. }
  destruct Hlenfacts as [Hlenrange Hposn].
  rewrite to_size_small in Hlen by lia.
  exists a, sp. subst slicelength.
  split; [by symmetry|]. split; [by symmetry|]. split; [exact Hnz|].
  split; [unfold Slice.ssize_max in Hsp; lia|].
  split; [exact Hlenrange|exact Hposn].
Qed.

Lemma to_size_add_mul st sp j :
  Word.to_size (Word.to_size st + j * Word.to_size sp)
    = Word.to_size (st + j * sp).
Proof.
  unfold Word.to_size.
  rewrite Z.add_mod_idemp_l by discriminate.
  rewrite <- Z.add_mod_idemp_r by discriminate.
  rewrite Z.mul_mod_idemp_r by discriminate.
  by rewrite Z.add_mod_idemp_r by discriminate.
Qed.

Lemma to_size_add_mul_wrapped st sp j :
  Word.to_size (Word.to_size st + Word.to_size (j * Word.to_size sp))
    = Word.to_size (st + j * sp).
Proof.
  rewrite <- to_size_add_mul. unfold Word.to_size.
  by rewrite Z.add_mod_idemp_r by discriminate.
Qed.

(** The reading loop with any step, while the positions stay inside. *)
Lemma getPages_loop_positions pl w sp :
  page_count w pl < Word.half ->
  forall k st,
  (forall j, 0 <= j < Z.of_nat k -> 0 <= st + j * sp < page_count w pl) ->
  exists l,
    getPages_loop pl k (Word.to_size st) (Word.to_size sp) w = (inr l, w) /\
    length l = k /\
    forall j, (j < k)%nat ->
      l !! j = pages_of w pl !! Z.to_nat (st + Z.of_nat j * sp).
Proof.
  intros Hsmall.
  assert (Hhalf : Word.half < Word.modulus) by reflexivity.
  induction k as [|k IH]; intros st Hpos.
  - exists []. split; [reflexivity|]. split; [reflexivity|]. intros j Hj. lia.
  - cbn [getPages_loop]. unfold bind.
    pose proof (Hpos 0 ltac:(lia)) as H0. rewrite Z.mul_0_l, Z.add_0_r in H0.
    rewrite (to_size_small st), to_ssize_nonneg by lia.
    destruct (lookup_lt_is_Some_2 (pages_of w pl) (Z.to_nat st))
      as [page Hpage]; [unfold page_count in *; lia|].
    rewrite (getPage_hit _ _ _ page); [|lia|lia|exact Hpage].
    rewrite to_size_add_idemp.
    destruct (IH (st + sp)) as (l & Hrun & Hlen & Hl).
    { intros j Hj. specialize (Hpos (j + 1) ltac:(lia)).
      replace (st + sp + j * sp) with (st + (j + 1) * sp) by lia. exact Hpos. }
    rewrite Hrun. exists (page :: l).
    split; [reflexivity|]. split; [simpl; lia|].
    intros [|j] Hj; simpl.
    + by rewrite Z.mul_0_l, Z.add_0_r.
    + rewrite Hl by lia. do 2 f_equal. lia.
Qed.

(** X11: [getPages] on any slice with a non-zero step returns exactly
    [slicelength] pages and never raises: the [size_t] cursor, advanced by
    the step modulo [2^64], stays below the count at every read, and the
    page read at turn [j] is the one at the cursor [start + j * step]. A
    slice with step zero is refused before anything is read. *)
Theorem getPages_any_step (pl : PageList) (w : World) (slice : py_slice) :
  page_count w pl < Word.half ->
  (forall start stop step slicelength,
     Slice.compute slice (page_count w pl)
       = Some (start, stop, step, slicelength) ->
     exists l,
       getPages pl slice w = (inr l, w) /\
       Z.of_nat (length l) = slicelength /\
       forall j, (j < length l)%nat ->
         Word.to_size (start + Z.of_nat j * step) < page_count w pl /\
         l !! j = pages_of w pl
                    !! Z.to_nat (Word.to_size (start + Z.of_nat j * step))) /\
  (slice_step slice = Some 0 ->
     getPages pl slice w = (inl error_already_set, w)).
Proof.
  intros Hsmall.
  assert (Hn : 0 <= page_count w pl < Word.half)
    by (unfold page_count in *; lia).
  assert (Hhalf : Word.half < Word.modulus) by reflexivity.
  split.
  - intros start stop step slicelength Hcompute.
    destruct (compute_positions _ _ _ _ _ _ Hn Hcompute)
      as (st & sp & -> & -> & Hnz & Hsp & Hlen & Hpos).
    destruct (getPages_loop_positions pl w sp Hsmall (Z.to_nat slicelength) st)
      as (l & Hrun & Hl & Hitems).
    { intros j Hj. apply Hpos. lia. }
    exists l. split.
    { unfold getPages, bind. by rewrite count_run, Hcompute. }
    split; [lia|].
    intros j Hj. rewrite Hl in Hj.
    assert (Hcursor : Word.to_size (Word.to_size st + Z.of_nat j * Word.to_size sp)
                      = st + Z.of_nat j * sp).
    { rewrite to_size_add_mul. apply to_size_small.
      specialize (Hpos (Z.of_nat j) ltac:(lia)). lia. }
    rewrite Hcursor. split.
    + specialize (Hpos (Z.of_nat j) ltac:(lia)). lia.
    + by apply Hitems.
  - intros Hzero. unfold getPages, bind. rewrite count_run.
    unfold Slice.compute, Slice.unpack. rewrite Hzero.
    change (Z.max (- Slice.ssize_max) (Slice.clamp 0) =? 0) with true.
    reflexivity.
Qed.

Lemma getPages_any_step_witness :
  page_count Samples.w3 Samples.pl1 < Word.half /\
  exists l,
    getPages Samples.pl1 (mkSlice None None (Some (-2))) Samples.w3
      = (inr l, Samples.w3) /\
    Z.of_nat (length l) = 2.
Proof.
  assert (Hs : page_count Samples.w3 Samples.pl1 < Word.half) by reflexivity.
  split; [exact Hs|].
  destruct (proj1 (getPages_any_step Samples.pl1 Samples.w3
                     (mkSlice None None (Some (-2))) Hs)
              2 (Word.to_size (-1)) (Word.to_size (-2)) 2 eq_refl)
    as (l & Hrun & Hlen & _).
  exists l. split; [exact Hrun|exact Hlen].
Defined.

End AnyStep.

(** ** Slice assignment: the extended slice *)

Section ExtendedSlice.

Lemma NoDup_replace {A B} (f : A -> B) (l r : list A) (p : nat) (x : A) :
  (p < length l)%nat ->
  NoDup (f <$> (l ++ x :: r)) -> NoDup (f <$> (<[p := x]> l ++ r)).
Proof.
  intros Hp Hnd.
  destruct (lookup_lt_is_Some_2 l p Hp) as [c Hc].
  rewrite insert_take_drop by exact Hp.
  rewrite <- (take_drop_middle l p c Hc) in Hnd.
  assert (Hperm : (take p l ++ c :: drop (S p) l) ++ x :: r
                  ≡ₚ c :: (take p l ++ x :: drop (S p) l) ++ r).
  { rewrite <- !app_assoc. simpl.
    rewrite <- (Permutation_middle _ _ c). constructor.
    apply Permutation_app_head.
    rewrite <- (Permutation_middle _ _ x). reflexivity. }
  rewrite Hperm, fmap_cons in Hnd.
  by apply NoDup_cons in Hnd as [_ Hnd].
Qed.

(** The extended-slice loop from turn [i0] on: turn [i] replaces the page at
    position [st + i * sp]. *)
Lemma extended_assign_loop pl st sp (rest : list QPDFObjectHandle) :
  sp <> 0 ->
  forall v (done_ results : list py_object),
  results = done_ ++ (py_handle <$> rest) ->
  Forall (fun h => isPageObject h = true) rest ->
  (forall j, Z.of_nat (length done_) <= j
             < Z.of_nat (length done_ + length rest) ->
             0 <= st + j * sp < page_count v pl) ->
  page_count v pl + 1 < Word.half ->
  NoDup (objgen <$> (pages_of v pl ++ stamp (qpdf pl) (next_of v pl) rest)) ->
  exists v',
    for_loop (length done_) (length rest)
      (fun i => setPage pl
                  (Word.to_size (Word.to_size st
                                 + Word.to_size (Z.of_nat i * Word.to_size sp)))
                  (list_item results i)) v = (inr tt, v') /\
    length (pages_of v' pl) = length (pages_of v pl) /\
    (forall j, (j < length rest)%nat ->
       pages_of v' pl !! Z.to_nat (st + Z.of_nat (length done_ + j) * sp)
         = stamp (qpdf pl) (next_of v pl) rest !! j) /\
    (forall k,
       (forall j, (j < length rest)%nat ->
          k <> Z.to_nat (st + Z.of_nat (length done_ + j) * sp)) ->
       pages_of v' pl !! k = pages_of v pl !! k).
Proof.
  intros Hnz.
  assert (Hhalf : Word.half < Word.modulus) by reflexivity.
  induction rest as [|h rest IH];
    intros v done_ results Hres Hpages Hpos Hsmall Hnd.
  - exists v. split; [reflexivity|]. split; [reflexivity|].
    split; [intros j Hj; simpl in Hj; lia|done].
  - apply Forall_cons in Hpages as [Hh Hpages].
    simpl length in *. rewrite for_loop_step.
    assert (Hitem : list_item results (length done_) = py_handle h).
    { unfold list_item. subst results. rewrite fmap_cons.
      by rewrite list_lookup_middle. }
    pose proof (Hpos (Z.of_nat (length done_)) ltac:(lia)) as Hp0.
    set (p := st + Z.of_nat (length done_) * sp) in *.
    assert (Hindex : Word.to_size (Word.to_size st
                       + Word.to_size (Z.of_nat (length done_) * Word.to_size sp))
                     = p).
    { rewrite to_size_add_mul_wrapped. apply to_size_small. lia. }
    rewrite Hitem, Hindex.
    rewrite stamp_cons_placed in Hnd.
    assert (Hnd0 : NoDup (objgen <$> pages_of v pl)).
    { rewrite fmap_app in Hnd. by apply NoDup_app in Hnd as [? _]. }
    assert (Hfresh : objgen (placed v pl h) ∉ objgen <$> pages_of v pl).
    { rewrite fmap_app, fmap_cons in Hnd.
      apply NoDup_app in Hnd as (_ & Hdisj & _).
      intros Hin. apply (Hdisj _ Hin). left. }
    assert (Hlt : (Z.to_nat p < length (pages_of v pl))%nat)
      by (unfold page_count in Hp0; lia).
    rewrite setPage_replaces by (done || lia).
    rewrite <- insert_take_drop by exact Hlt.
    set (v1 := with_pages (booked v pl h) pl
                 (<[Z.to_nat p := placed v pl h]> (pages_of v pl))).
    assert (Hp1 : pages_of v1 pl = <[Z.to_nat p := placed v pl h]> (pages_of v pl))
      by apply pages_of_with_pages.
    assert (Hn1 : next_of v1 pl = next_of (booked v pl h) pl)
      by apply next_of_with_pages.
    assert (Hc1 : page_count v1 pl = page_count v pl).
    { unfold page_count. by rewrite Hp1, length_insert. }
    destruct (IH v1 (done_ ++ [py_handle h]) results) as (v' & Hrun & Hlen & Hset & Hkeep).
    + subst results. by rewrite <- app_assoc.
    + exact Hpages.
    + intros j Hj. rewrite Hc1. apply Hpos.
      rewrite length_app in Hj. simpl in Hj. lia.
    + lia.
    + rewrite Hp1, Hn1. by apply NoDup_replace.
    + rewrite length_app in Hrun, Hset, Hkeep. simpl in Hrun, Hset, Hkeep.
      replace (length done_ + 1)%nat with (S (length done_)) in Hrun by lia.
      exists v'. split; [exact Hrun|].
      split; [by rewrite Hlen, Hp1, length_insert|].
      assert (Hdistinct : forall j, (j < length rest)%nat ->
                Z.to_nat p
                <> Z.to_nat (st + Z.of_nat (length done_ + 1 + j) * sp)).
      { intros j Hj.
        pose proof (Hpos (Z.of_nat (length done_ + 1 + j)) ltac:(lia)) as Hpj.
        unfold p. intros Heq. apply Z2Nat.inj in Heq; [|lia|lia]. nia. }
      split.
      * intros [|j] Hj.
        -- rewrite Nat.add_0_r. fold p.
           rewrite Hkeep by exact Hdistinct.
           rewrite Hp1, list_lookup_insert_eq by exact Hlt.
           by rewrite stamp_cons_placed.
        -- rewrite stamp_cons_placed. simpl. rewrite <- Hn1.
           rewrite <- (Hset j) by lia. do 3 f_equal. lia.
      * intros k Hk. rewrite Hkeep.
        -- rewrite Hp1. apply list_lookup_insert_ne.
           specialize (Hk 0%nat ltac:(lia)). rewrite Nat.add_0_r in Hk.
           fold p in Hk. congruence.
        -- intros j Hj. specialize (Hk (S j) ltac:(lia)).
           replace (length done_ + 1 + j)%nat with (length done_ + S j)%nat
             by lia. exact Hk.
Qed.

(** X12: slice assignment on an extended slice (step other than [1]) with
    as many source pages as the slice has positions replaces the page at
    each position [start + j * step] by source [j] (its fresh copy for a
    page of the bound document), in slice order; the count is unchanged and
    every position outside the slice keeps its page. *)
Theorem setPagesFromIterable_extended_slice (pl : PageList) (w : World)
  (slice : py_slice) (srcs : list QPDFObjectHandle)
  (start stop step slicelength : Z) :
  wf w pl ->
  Slice.compute slice (page_count w pl)
    = Some (start, stop, step, slicelength) ->
  step <> 1 -> Z.of_nat (length srcs) = slicelength ->
  Forall (fun h => isPageObject h = true) srcs ->
  NoDup (objgen <$> (pages_of w pl ++ foreign_sources (qpdf pl) srcs)) ->
  page_count w pl + 1 < Word.half ->
  let position j := Z.to_nat (Word.to_size (start + Z.of_nat j * step)) in
  exists w',
    setPagesFromIterable pl slice (py_handle <$> srcs) w = (inr tt, w') /\
    page_count w' pl = page_count w pl /\
    (forall j, (j < length srcs)%nat ->
       pages_of w' pl !! position j
         = stamp (qpdf pl) (next_of w pl) srcs !! j) /\
    (forall k, (forall j, (j < length srcs)%nat -> k <> position j) ->
       pages_of w' pl !! k = pages_of w pl !! k).
Proof.
  intros [Hnd Halloc] Hcompute Hstep Hlen Hpages Hforeign Hsmall position.
  assert (Hhalf : Word.half < Word.modulus) by reflexivity.
  assert (Hn : 0 <= page_count w pl < Word.half)
    by (unfold page_count in *; lia).
  destruct (compute_positions _ _ _ _ _ _ Hn Hcompute)
    as (st & sp & Hst & Hsp & Hnz & Hsprange & Hlrange & Hpos).
  assert (Hcursor : forall j, (j < length srcs)%nat ->
            position j = Z.to_nat (st + Z.of_nat j * sp)).
  { intros j Hj. unfold position. subst start step.
    rewrite to_size_add_mul. f_equal. apply to_size_small.
    specialize (Hpos (Z.of_nat j) ltac:(lia)). lia. }
  destruct (extended_assign_loop pl st sp srcs Hnz w [] (py_handle <$> srcs))
    as (w' & Hrun & Hlength & Hset & Hkeep).
  - reflexivity.
  - exact Hpages.
  - intros j Hj. simpl in Hj. apply Hpos. lia.
  - exact Hsmall.
  - by apply stamp_NoDup.
  - simpl in Hrun, Hset, Hkeep.
    exists w'. split.
    { unfold setPagesFromIterable, bind. rewrite count_run, Hcompute.
      rewrite unpack_iterable_ok by (by apply handles_are_page_objects).
      assert (H1 : (step =? 1) = false) by lia.
      assert (H2 : (Z.of_nat (length (py_handle <$> srcs)) =? slicelength) = true)
        by (rewrite length_fmap; lia).
      rewrite H1, H2. cbn [negb]. unfold extended_assign.
      rewrite <- Hlen, Nat2Z.id. subst start step. exact Hrun. }
    split; [unfold page_count; by rewrite Hlength|].
    split.
    + intros j Hj. rewrite (Hcursor j Hj). by apply Hset.
    + intros k Hk. apply Hkeep. intros j Hj.
      rewrite <- (Hcursor j Hj). by apply Hk.
Qed.

Lemma setPagesFromIterable_extended_slice_witness :
  exists w',
    setPagesFromIterable Samples.pl1 (mkSlice None None (Some (-2)))
      (py_handle <$> [Samples.foreign; Samples.pg 2 8]) Samples.w3
      = (inr tt, w') /\
    page_count w' Samples.pl1 = page_count Samples.w3 Samples.pl1 /\
    pages_of w' Samples.pl1 !! 2%nat = Some Samples.foreign.
Proof.
  destruct (setPagesFromIterable_extended_slice Samples.pl1 Samples.w3
              (mkSlice None None (Some (-2)))
              [Samples.foreign; Samples.pg 2 8]
              2 (Word.to_size (-1)) (Word.to_size (-2)) 2)
    as (w' & Hrun & Hcount & Hset & _).
  - exact sample_w3_wf.
  - reflexivity.
  - intros Hc. discriminate Hc.
  - reflexivity.
  - refine (bool_decide_unpack _ _). vm_compute. exact I.
  - refine (bool_decide_unpack _ _). vm_compute. exact I.
  - reflexivity.
  - exists w'. split; [exact Hrun|]. split; [exact Hcount|].
    apply (Hset 0%nat). simpl. lia.
Defined.

End ExtendedSlice.

(** ** Rejected insertions *)

Section Resources.

(** X14: an index between the count and [2^64 - count] makes [insertPage]
    raise the out-of-range error with the page collection unchanged, but
    only after the ownership bookkeeping: for a page of the bound document
    an object number has been consumed, for a page of another document a
    reference on its owner has been taken. *)
Theorem insertPage_rejects_after_bookkeeping (pl : PageList) (w : World)
  (index : Z) (page : QPDFObjectHandle) :
  page_count w pl < Word.half ->
  page_count w pl < index < Word.modulus - page_count w pl ->
  exists w', insertPage pl index page w = (inl index_error, w') /\
    pages_of w' pl = pages_of w pl /\
    page_count w' pl = page_count w pl /\
    (owning_qpdf page = qpdf pl ->
       next_of w' pl = S (next_of w pl) /\ py_refs w' = py_refs w) /\
    (owning_qpdf page <> qpdf pl ->
       next_of w' pl = next_of w pl /\
       py_refs w' = owning_qpdf page :: py_refs w).
Proof.
  intros Hsmall Hidx.
  destruct (insertPage_reject_bookkeeping pl w index page Hsmall Hidx)
    as (w' & Hrun & Hpages & Hown & Hforeign).
  exists w'. split; [exact Hrun|]. split; [exact Hpages|].
  split; [unfold page_count; by rewrite Hpages|].
  split; [exact Hown|exact Hforeign].
Qed.

Lemma insertPage_rejects_after_bookkeeping_witness :
  exists w',
    insertPage Samples.pl1 5 Samples.foreign Samples.w3 = (inl index_error, w') /\
    pages_of w' Samples.pl1 = pages_of Samples.w3 Samples.pl1 /\
    py_refs w' = [2%nat].
Proof.
  destruct (insertPage_rejects_after_bookkeeping Samples.pl1 Samples.w3 5
              Samples.foreign) as (w' & Hrun & Hpages & _ & _ & Hrefs).
  - reflexivity.
  - split; reflexivity.
  - exists w'. split; [exact Hrun|]. split; [exact Hpages|].
    apply Hrefs. intros Hc. discriminate Hc.
Defined.

End Resources.
